(** * tools/fix_md_tables.py: markdown table normalizer

    A shallow embedding of the script and the properties of its line
    normalizer, its fence tracking, its file selector and its driver.

    Python [str] values are sequences of Unicode code points; they are
    modelled as lists of code points ([N]).  Exceptions are modelled by the
    error monad [exc]; the file system by a finite map from paths to nodes. *)

From Stdlib Require Import String Ascii Sorted.
From stdpp Require Import base numbers list gmap.

Open Scope N_scope.

(** ** Python values and exceptions *)

Definition char := N.
Definition str := list char.

(** String literals of the source, as code points. *)
Definition lit (s : string) : str := map N_of_ascii (list_ascii_of_string s).

Definition LF : char := 10.
Definition CR : char := 13.
Definition FF : char := 12.
Definition PIPE : char := 124.
Definition DASH : char := 45.
Definition COLON : char := 58.
Definition STAR : char := 42.
Definition PLUS : char := 43.
Definition BACKTICK : char := 96.
Definition SLASH : char := 47.

Inductive exn : Type :=
  | ValueError
  | OSError
  | UnicodeDecodeError.

Inductive exc (A : Type) : Type :=
  | Ret (a : A)
  | Raise (e : exn).
Arguments Ret {A} a.
Arguments Raise {A} e.

Definition bind {A B : Type} (m : exc A) (k : A -> exc B) : exc B :=
  match m with
  | Ret a => k a
  | Raise e => Raise e
  end.

(** [try m handler]: Python's [try: m except Exception: handler]. *)
Definition try {A : Type} (m : exc A) (handler : exn -> A) : A :=
  match m with
  | Ret a => a
  | Raise e => handler e
  end.

Declare Scope exc_scope.
Delimit Scope exc_scope with exc.
Notation "'let*' x ':=' m 'in' k" := (bind m (fun x => k))
  (at level 10, x pattern, m at level 100, k at level 200) : exc_scope.
Open Scope exc_scope.

(** ** String primitives of Python used by the script *)
Module Py.

(** [str.isspace] on one code point (CPython's [_PyUnicode_IsWhitespace]);
    the same set is matched by [\s] in [re] on [str] patterns. *)
Definition isspace (c : char) : bool :=
  ((9 <=? c) && (c <=? 13)) || ((28 <=? c) && (c <=? 32))
  || (c =? 133) || (c =? 160) || (c =? 5760)
  || ((8192 <=? c) && (c <=? 8202))
  || (c =? 8232) || (c =? 8233) || (c =? 8239) || (c =? 8287) || (c =? 12288).

(** Line boundaries of [str.splitlines] (CPython's [_PyUnicode_IsLinebreak]). *)
Definition islinebreak (c : char) : bool :=
  ((10 <=? c) && (c <=? 13)) || ((28 <=? c) && (c <=? 30))
  || (c =? 133) || (c =? 8232) || (c =? 8233).

Fixpoint drop_while (f : char -> bool) (s : str) : str :=
  match s with
  | [] => []
  | c :: t => if f c then drop_while f t else s
  end.

Definition mem (c : char) (chars : str) : bool := existsb (N.eqb c) chars.

Definition lstrip (s : str) : str := drop_while isspace s.
Definition rstrip (s : str) : str := rev (drop_while isspace (rev s)).
Definition strip (s : str) : str := rstrip (lstrip s).

(** [s.rstrip(chars)]: drop trailing code points that occur in [chars]. *)
Definition rstrip_chars (chars s : str) : str :=
  rev (drop_while (fun c => mem c chars) (rev s)).

Fixpoint str_eqb (a b : str) : bool :=
  match a, b with
  | [], [] => true
  | x :: a', y :: b' => (x =? y) && str_eqb a' b'
  | _, _ => false
  end.

Fixpoint startswith (s pre : str) {struct pre} : bool :=
  match pre, s with
  | [], _ => true
  | p :: pre', c :: s' => (c =? p) && startswith s' pre'
  | _ :: _, [] => false
  end.

Definition endswith (s suf : str) : bool := startswith (rev s) (rev suf).

(** [needle in hay] on strings. *)
Fixpoint contains (needle hay : str) : bool :=
  startswith hay needle ||
  match hay with
  | [] => false
  | _ :: t => contains needle t
  end.

(** [s.split(sep)]: leftmost, non-overlapping occurrences of [sep]; an empty
    separator raises [ValueError].  [skip] counts the code points of an
    occurrence of [sep] still to be passed over; [cur] is the current segment,
    reversed. *)
Fixpoint split_go (sep : str) (skip : nat) (cur : str) (s : str) : list str :=
  match s with
  | [] => [rev cur]
  | c :: t =>
      match skip with
      | S k => split_go sep k cur t
      | O =>
          if startswith s sep
          then rev cur :: split_go sep (Nat.pred (length sep)) [] t
          else split_go sep O (c :: cur) t
      end
  end.

Definition split (s sep : str) : exc (list str) :=
  match sep with
  | [] => Raise ValueError
  | _ :: _ => Ret (split_go sep O [] s)
  end.

(** [s.count(sub)] for a one-character [sub]. *)
Definition count (s : str) (c : char) : nat :=
  length (List.filter (N.eqb c) s).

(** [sep.join(items)]. *)
Fixpoint join (sep : str) (items : list str) : str :=
  match items with
  | [] => []
  | [x] => x
  | x :: rest => x ++ sep ++ join sep rest
  end.

(** [s.splitlines(keepends=True)]: a line ends at a line boundary, which it
    keeps; CR LF is one boundary; no empty last line. [cur] is the current
    line, reversed. *)
Fixpoint splitlines_go (cur : str) (s : str) : list str :=
  match s with
  | [] => match cur with [] => [] | _ :: _ => [rev cur] end
  | c :: t =>
      if islinebreak c then
        match t with
        | d :: t' =>
            if (c =? CR) && (d =? LF)
            then rev (d :: c :: cur) :: splitlines_go [] t'
            else rev (c :: cur) :: splitlines_go [] t
        | [] => [rev (c :: cur)]
        end
      else splitlines_go (c :: cur) t
  end.

Definition splitlines (s : str) : list str := splitlines_go [] s.

(** [parts[1:-1]]. *)
Definition slice_1_m1 {A : Type} (l : list A) : list A := removelast (tl l).

End Py.

(** ** The two regular expressions of the script *)
Module Re.

(** [re.match(r'^\s*[-*+]\s', s)]: the character classes are disjoint, so the
    greedy run of white space is the only candidate. *)
Definition match_bullet (s : str) : bool :=
  match Py.drop_while Py.isspace s with
  | c :: d :: _ => ((c =? DASH) || (c =? STAR) || (c =? PLUS)) && Py.isspace d
  | _ => false
  end.

Definition opt_colon (s : str) : str :=
  match s with
  | c :: t => if c =? COLON then t else s
  | [] => s
  end.

(** [re.compile(r'^:?-+:?$').match(s)]: an optional colon, a non-empty run of
    dashes, an optional colon, then [$], which holds at the end of the string
    and just before a final newline. *)
Definition match_sep (s : str) : bool :=
  match opt_colon s with
  | c :: _ =>
      if c =? DASH then
        let rest := opt_colon (Py.drop_while (N.eqb DASH) (opt_colon s)) in
        match rest with
        | [] => true
        | [d] => d =? LF
        | _ => false
        end
      else false
  | [] => false
  end.

End Re.

(** ** The line normalizer *)

Definition is_fence (line : str) : bool :=
  Py.startswith (Py.lstrip line) (lit "```").

Definition is_table_row (line : str) : bool :=
  let stripped := Py.strip line in
  if negb (Py.startswith stripped (lit "|")) || negb (Py.endswith stripped (lit "|"))
  then false
  else if (Py.count stripped PIPE <? 2)%nat then false
  else if Re.match_bullet line then false
  else true.

(** [all(sep_pattern.match(p.strip()) for p in inner_parts if p.strip())] *)
Definition is_separator (inner_parts : list str) : bool :=
  forallb (fun p => Re.match_sep (Py.strip p))
          (List.filter (fun p => negb (Py.str_eqb (Py.strip p) [])) inner_parts).

(** The body of the loop over [inner_parts]: the cell appended for [p]. *)
Definition normalized_cell (is_sep : bool) (p : str) : str :=
  let content := Py.strip p in
  if is_sep && negb (Py.str_eqb content []) then
    let left_colon := if Py.startswith content (lit ":") then lit ":" else [] in
    let right_colon := if Py.endswith content (lit ":") then lit ":" else [] in
    lit " " ++ left_colon ++ lit "---" ++ right_colon ++ lit " "
  else if negb (Py.str_eqb content []) then
    lit " " ++ content ++ lit " "
  else
    lit " ".

Definition normalize_table_line (line : str) : exc str :=
  let stripped := Py.rstrip_chars [LF] line in
  let* parts := Py.split stripped (lit "|") in
  if (length parts <? 3)%nat then Ret line
  else
    let inner_parts := Py.slice_1_m1 parts in
    let is_sep := is_separator inner_parts in
    let normalized_cells := map (normalized_cell is_sep) inner_parts in
    let result := lit "|" ++ Py.join (lit "|") normalized_cells ++ lit "|" in
    if Py.endswith line [LF] then Ret (result ++ [LF]) else Ret result.

(** The state of the loop of [process_file] over the lines of one file. *)
Record loop_state : Type := LoopState {
  in_fence : bool;
  changed : bool;
  out_lines : list str
}.

(** [in_fence = not in_fence] *)
Definition toggle_fence (st : loop_state) : loop_state :=
  {| in_fence := negb (in_fence st);
     changed := changed st;
     out_lines := out_lines st |}.

(** [out_lines.append(line)] *)
Definition append_line (st : loop_state) (line : str) : loop_state :=
  {| in_fence := in_fence st;
     changed := changed st;
     out_lines := out_lines st ++ [line] |}.

(** One iteration of [for line in lines]. *)
Definition process_line (st : loop_state) (line : str) : loop_state :=
  if is_fence line then append_line (toggle_fence st) line
  else if in_fence st then append_line st line
  else if is_table_row line then
    try (let* new_line := normalize_table_line line in
         Ret {| in_fence := in_fence st;
                changed := if negb (Py.str_eqb new_line line) then true else changed st;
                out_lines := out_lines st ++ [new_line] |})
        (fun _ => append_line st line)
  else append_line st line.

Definition loop_init : loop_state :=
  {| in_fence := false; changed := false; out_lines := [] |}.

Definition process_lines (lines : list str) : loop_state :=
  fold_left process_line lines loop_init.

(** ** Paths and the file system *)

(** A path is the tuple of its parts, as [pathlib] keeps it: the anchor
    (["/"] or ["//"]) first when there is one. *)
Definition path := list str.

Module Pathlib.

(** [Path(s)] on POSIX: empty and ["."] segments are dropped, [".."] is kept;
    exactly two leading slashes are kept as the anchor ["//"]. *)
Definition anchor (s : str) : list str :=
  match s with
  | a :: rest =>
      if a =? SLASH then
        match rest with
        | b :: rest' =>
            if (b =? SLASH) && negb (Py.startswith rest' (lit "/"))
            then [lit "//"] else [lit "/"]
        | [] => [lit "/"]
        end
      else []
  | [] => []
  end.

Definition Path (s : str) : path :=
  anchor s ++
  List.filter (fun seg => negb (Py.str_eqb seg []) && negb (Py.str_eqb seg (lit ".")))
              (Py.split_go (lit "/") O [] s).

(** [str(p)]. *)
Definition to_str (p : path) : str :=
  match p with
  | [] => lit "."
  | a :: rest => if Py.startswith a (lit "/") then a ++ Py.join (lit "/") rest
                 else Py.join (lit "/") p
  end.

(** Order of paths: tuples of parts, each part by code points. *)
Fixpoint str_leb (a b : str) : bool :=
  match a, b with
  | [], _ => true
  | _ :: _, [] => false
  | x :: a', y :: b' => (x <? y) || ((x =? y) && str_leb a' b')
  end.

Fixpoint path_leb (p q : path) : bool :=
  match p, q with
  | [], _ => true
  | _ :: _, [] => false
  | x :: p', y :: q' =>
      if Py.str_eqb x y then path_leb p' q' else str_leb x y
  end.

End Pathlib.

(** A file: what decoding its bytes as UTF-8 gives (or the exception that
    reading raises), and whether it can be written. *)
Record file : Type := mkFile {
  contents : exc str;
  writable : bool
}.

Inductive node : Type :=
  | Dir
  | File (f : file).

(** The file system, as seen from the working directory; paths without
    symbolic links and without [".."]. *)
Abbreviation world := (gmap (list (list N)) node).

Module Fs.

Definition is_file (w : world) (p : path) : bool :=
  match w !! p with
  | Some (File _) => true
  | _ => false
  end.

Fixpoint proper_prefix (p q : path) : bool :=
  match p, q with
  | [], _ :: _ => true
  | x :: p', y :: q' => Py.str_eqb x y && proper_prefix p' q'
  | _, [] => false
  end.

(** The name of a path matches the pattern [*.md]. *)
Definition matches_md (q : path) : bool :=
  Py.endswith (List.last q []) (lit ".md").

(** [p.rglob("*.md")]: every entry below [p] whose name matches. *)
Definition rglob_md (w : world) (p : path) : list path :=
  List.filter (fun q => proper_prefix p q && matches_md q) (map fst (map_to_list w)).

(** Text mode with [newline=None]: CR LF and CR are read as LF. *)
Fixpoint universal_newlines (s : str) : str :=
  match s with
  | [] => []
  | c :: t =>
      if c =? CR then
        LF :: match t with
              | d :: t' => if d =? LF then universal_newlines t' else universal_newlines t
              | [] => []
              end
      else c :: universal_newlines t
  end.

Definition read_text (w : world) (p : path) : exc str :=
  match w !! p with
  | Some (File f) => let* raw := contents f in Ret (universal_newlines raw)
  | Some Dir => Raise OSError
  | None => Raise OSError
  end.

Definition write_text (w : world) (p : path) (s : str) : exc world :=
  match w !! p with
  | Some (File f) =>
      if writable f then Ret (<[p := File {| contents := Ret s; writable := true |}]> w)
      else Raise OSError
  | Some Dir => Raise OSError
  | None => Ret (<[p := File {| contents := Ret s; writable := true |}]> w)
  end.

End Fs.

(** ** Processing one file *)

Definition process_file (w : world) (p : path) : exc (bool * world) :=
  let* text := Fs.read_text w p in
  let st := process_lines (Py.splitlines text) in
  if changed st then
    let* w' := Fs.write_text w p (Py.join [] (out_lines st)) in
    Ret (true, w')
  else Ret (false, w).

(** ** The file selector *)

Fixpoint insert_sorted (p : path) (l : list path) : list path :=
  match l with
  | [] => [p]
  | q :: l' => if Pathlib.path_leb p q then p :: l else q :: insert_sorted p l'
  end.

(** [sorted(paths)] *)
Definition sorted (l : list path) : list path := foldr insert_sorted [] l.

Definition gather_files (w : world) (args : list str) : list path :=
  match args with
  | _ :: _ =>
      let paths :=
        flat_map (fun p => let ppath := Pathlib.Path p in
                           if Fs.is_file w ppath then [ppath]
                           else Fs.rglob_md w ppath) args in
      sorted (remove_dups paths)
  | [] =>
      let all_md := Fs.rglob_md w (Pathlib.Path (lit ".")) in
      sorted (List.filter
                (fun p => negb (Py.contains (lit "node_modules") (Pathlib.to_str p)))
                all_md)
  end.

(** ** The driver *)

Inductive message : Type :=
  | NoMarkdownFilesFound
  | Updated (f : path)
  | ErrorProcessing (f : path) (e : exn)
  | SomeFilesUpdated
  | NoChangesNeeded.

(** What a run leaves behind: the exit status, the file system, the lines
    printed, and the files handed to [process_file], in order. *)
Record outcome : Type := Outcome {
  status : Z;
  final : world;
  printed : list message;
  processed : list path
}.

(** [for f in targets] and the lines after it. *)
Fixpoint main_loop (w : world) (any_changed : bool) (log : list message)
    (seen : list path) (targets : list path) : outcome :=
  match targets with
  | [] =>
      {| status := 0%Z; final := w;
         printed := log ++ [if any_changed then SomeFilesUpdated else NoChangesNeeded];
         processed := seen |}
  | f :: rest =>
      match process_file w f with
      | Ret (true, w') => main_loop w' true (log ++ [Updated f]) (seen ++ [f]) rest
      | Ret (false, w') => main_loop w' any_changed log (seen ++ [f]) rest
      | Raise e =>
          {| status := 2%Z; final := w;
             printed := log ++ [ErrorProcessing f e];
             processed := seen ++ [f] |}
      end
  end.

Definition main (w : world) (argv : list str) : outcome :=
  let targets := gather_files w (tl argv) in
  match targets with
  | [] => {| status := 1%Z; final := w; printed := [NoMarkdownFilesFound];
             processed := [] |}
  | _ :: _ => main_loop w false [] [] targets
  end.

(** ** Vocabulary of the statements *)

(** Dropping from the right, one code point at a time. *)
Definition rdrop (f : char -> bool) (s : str) : str :=
  rev (Py.drop_while f (rev s)).

(** A string is trimmed when stripping leaves it as it is. *)
Definition trimmed (s : str) : Prop := Py.lstrip s = s /\ Py.rstrip s = s.

Definition blank (p : str) : Prop := Py.strip p = [].

Definition colon_if (b : bool) : str := if b then [COLON] else [].

(** The language of [:?-+:?]. *)
Definition sep_shape (s : str) : Prop :=
  exists (l : bool) (n : nat) (r : bool),
    s = colon_if l ++ repeat DASH (S n) ++ colon_if r.

(** The alignment marker of a separator cell, padded. *)
Definition marker (l r : bool) : str :=
  lit " " ++ colon_if l ++ lit "---" ++ colon_if r ++ lit " ".

(** The parts of a line, as [normalize_table_line] computes them, and its
    cells: the segments strictly between its first and its last pipe. *)
Definition parts_of (line : str) : list str :=
  Py.split_go (lit "|") O [] (Py.rstrip_chars [LF] line).

Definition cells (line : str) : list str := Py.slice_1_m1 (parts_of line).

(** The line rebuilt from its cells, without its line ending. *)
Definition rebuilt (cs : list str) : str :=
  lit "|" ++ Py.join (lit "|") cs ++ lit "|".

(** The number of fence markers among the lines read so far. *)
Definition fences_before (pre : list str) : nat := length (List.filter is_fence pre).

(** The text that [process_file] computes from the text of a file. *)
Definition normalized_text (text : str) : str :=
  Py.join [] (out_lines (process_lines (Py.splitlines text))).

(** Every target is processed without an exception: the file system that
    the run leaves, if so. *)
Fixpoint all_processed (w : world) (targets : list path) : option world :=
  match targets with
  | [] => Some w
  | f :: rest =>
      match process_file w f with
      | Ret (_, w') => all_processed w' rest
      | Raise _ => None
      end
  end.

(** Texts whose only line boundary is the newline, and the lines that
    [str.splitlines] makes of them: a body and a newline, or, for the last
    line only, a non-empty body. *)
Definition no_linebreak (s : str) : Prop :=
  forall c, In c s -> Py.islinebreak c = false.

Definition newline_only (text : str) : Prop :=
  forall c, In c text -> Py.islinebreak c = true -> c = LF.

Definition line_ok (l : str) : Prop :=
  exists body, no_linebreak body /\ l = body ++ [LF].

Definition last_ok (l : str) : Prop := no_linebreak l /\ l <> [].

Fixpoint lines_ok (ls : list str) : Prop :=
  match ls with
  | [] => True
  | l :: rest =>
      match rest with
      | [] => line_ok l \/ last_ok l
      | _ :: _ => line_ok l /\ lines_ok rest
      end
  end.

(** The characters that the rewrite adds to a line. *)
Definition plain_char (c : char) : Prop :=
  c = PIPE \/ c = 32 \/ c = DASH \/ c = COLON.

(** An emitted line keeps the shape of the line it comes from. *)
Definition same_shape (l e : str) : Prop :=
  (line_ok l -> line_ok e) /\ (last_ok l -> last_ok e).

(** ** File systems of the examples *)

Definition plain_file (s : str) : node :=
  File {| contents := Ret s; writable := true |}.

(** A directory [docs] with a markdown file and a vendored package, and a
    text file next to it. *)
Definition vendor_world : world :=
  list_to_map
    [ (Pathlib.Path (lit "docs"), Dir);
      (Pathlib.Path (lit "docs/a.md"), plain_file (lit "|a|b|"));
      (Pathlib.Path (lit "docs/node_modules"), Dir);
      (Pathlib.Path (lit "docs/node_modules/pkg"), Dir);
      (Pathlib.Path (lit "docs/node_modules/pkg/README.md"), plain_file (lit "|x|"));
      (Pathlib.Path (lit "notes.txt"), plain_file (lit "|a|b|")) ].

(** A table whose first row ends in a form feed, a line boundary of
    [str.splitlines] that is not a newline. *)
Definition form_feed_text : str :=
  lit "|a|" ++ [FF] ++ lit "|b|" ++ [LF].

Definition one_file_world (text : str) : world :=
  {[ Pathlib.Path (lit "t.md") := plain_file text ]}.

(** Two files, the first of which cannot be read. *)
Definition broken_world : world :=
  list_to_map
    [ (Pathlib.Path (lit "a.md"), File {| contents := Raise UnicodeDecodeError; writable := true |});
      (Pathlib.Path (lit "b.md"), plain_file (lit "|a|b|")) ].

(** A file in normal form that cannot be written. *)
Definition read_only_world : world :=
  {[ Pathlib.Path (lit "done.md") :=
       File {| contents := Ret (lit "| a | b |" ++ [LF] ++ lit "no table here");
               writable := false |} ]}.

(** A markdown file, a file whose name merely contains [node_modules], and
    a directory whose name ends in [.md]. *)
Definition edge_world : world :=
  list_to_map
    [ (Pathlib.Path (lit "a.md"), plain_file (lit "|a|"));
      (Pathlib.Path (lit "node_modules_notes.md"), plain_file (lit "|a|"));
      (Pathlib.Path (lit "docs"), Dir);
      (Pathlib.Path (lit "docs/x.md"), Dir) ].

(** The last line that a successful run prints. *)
Definition summary (updated : list path) : message :=
  match updated with
  | [] => NoChangesNeeded
  | _ :: _ => SomeFilesUpdated
  end.

(** The order in which [sorted] puts paths. *)
Definition path_le (p q : path) : Prop := Pathlib.path_leb p q = true.

(** * Properties *)

#[local] Arguments lit : simpl never.
#[local] Arguments N.eqb : simpl never.
#[local] Arguments N.leb : simpl never.
#[local] Arguments N.ltb : simpl never.

Lemma Ret_inj {A : Type} (a b : A) : Ret a = Ret b -> a = b.
Proof. intros H. injection H as H. exact H. Qed.

(** ** Strings *)
Section StringFacts.

Lemma str_eqb_eq (a b : str) : Py.str_eqb a b = true <-> a = b.
Proof.
  revert b; induction a as [|x a IH]; intros [|y b]; simpl; try (split; congruence).
  rewrite andb_true_iff, N.eqb_eq, IH. split; [intros [-> ->]; reflexivity|].
  intros [= -> ->]; auto.
Qed.

Lemma str_eqb_refl (a : str) : Py.str_eqb a a = true.
Proof. apply str_eqb_eq; reflexivity. Qed.

Lemma str_eqb_nil (s : str) : Py.str_eqb s [] = match s with [] => true | _ => false end.
Proof. destruct s; reflexivity. Qed.

Lemma startswith_iff (s pre : str) :
  Py.startswith s pre = true <-> exists k, s = pre ++ k.
Proof.
  revert s; induction pre as [|p pre IH]; intros s; simpl.
  - split; [intros _; exists s; reflexivity | reflexivity].
  - destruct s as [|c s].
    + split; [discriminate|]. intros [k Hk]. discriminate Hk.
    + rewrite andb_true_iff, N.eqb_eq, IH. split.
      * intros [-> [k ->]]. exists k. reflexivity.
      * intros [k Hk]. injection Hk as -> ->. split; [reflexivity|]. exists k. reflexivity.
Qed.

Lemma startswith_app (pre k : str) : Py.startswith (pre ++ k) pre = true.
Proof. apply startswith_iff; eauto. Qed.

Lemma endswith_iff (s suf : str) :
  Py.endswith s suf = true <-> exists k, s = k ++ suf.
Proof.
  unfold Py.endswith. rewrite startswith_iff. split; intros [k Hk].
  - exists (rev k). rewrite <- (rev_involutive s), Hk, rev_app_distr, rev_involutive.
    reflexivity.
  - exists (rev k). rewrite Hk, rev_app_distr. reflexivity.
Qed.

Lemma endswith_snoc (s : str) (c d : char) :
  Py.endswith (s ++ [c]) [d] = (c =? d).
Proof.
  unfold Py.endswith. rewrite rev_app_distr. simpl. apply andb_true_r.
Qed.

Lemma drop_while_app (f : char -> bool) (a b : str) :
  Py.drop_while f (a ++ b) =
  match Py.drop_while f a with
  | [] => Py.drop_while f b
  | r => r ++ b
  end.
Proof.
  induction a as [|c a IH]; simpl.
  - destruct (Py.drop_while f b); reflexivity.
  - destruct (f c); [exact IH|reflexivity].
Qed.

Lemma drop_while_idem (f : char -> bool) (s : str) :
  Py.drop_while f (Py.drop_while f s) = Py.drop_while f s.
Proof.
  induction s as [|c s IH]; simpl; [reflexivity|].
  destruct (f c) eqn:E; [exact IH|]. simpl. rewrite E. reflexivity.
Qed.

Lemma drop_while_all (f : char -> bool) (s : str) :
  forallb f s = true -> Py.drop_while f s = [].
Proof.
  induction s as [|c s IH]; simpl; [reflexivity|].
  destruct (f c); simpl; [exact IH|discriminate].
Qed.

Lemma drop_while_length (f : char -> bool) (s : str) :
  (length (Py.drop_while f s) <= length s)%nat.
Proof.
  induction s as [|d s IH]; simpl; [lia|]. destruct (f d); simpl; lia.
Qed.

Lemma drop_while_In (f : char -> bool) (s : str) (c : char) :
  In c (Py.drop_while f s) -> In c s.
Proof.
  induction s as [|d s IH]; simpl; [tauto|].
  destruct (f d); simpl; tauto.
Qed.

Lemma drop_while_head (f : char -> bool) (s : str) (c : char) (t : str) :
  Py.drop_while f s = c :: t -> f c = false.
Proof.
  induction s as [|d s IH]; simpl; [discriminate|].
  destruct (f d) eqn:E; [exact IH|]. intros [= -> _]. exact E.
Qed.

Lemma rdrop_cons (f : char -> bool) (c : char) (s : str) :
  rdrop f (c :: s) =
  match rdrop f s with
  | [] => if f c then [] else [c]
  | r => c :: r
  end.
Proof.
  unfold rdrop. simpl. rewrite drop_while_app.
  destruct (Py.drop_while f (rev s)) as [|d r] eqn:E; simpl.
  - destruct (f c); reflexivity.
  - rewrite rev_app_distr. simpl.
    destruct (rev r ++ [d]) eqn:E'; [destruct (rev r); discriminate|reflexivity].
Qed.

Lemma rdrop_snoc_stop (f : char -> bool) (s : str) (c : char) :
  f c = false -> rdrop f (s ++ [c]) = s ++ [c].
Proof.
  intros H. unfold rdrop. rewrite rev_app_distr. simpl. rewrite H.
  simpl. rewrite rev_involutive. reflexivity.
Qed.

Lemma rdrop_snoc_drop (f : char -> bool) (s : str) (c : char) :
  f c = true -> rdrop f (s ++ [c]) = rdrop f s.
Proof.
  intros H. unfold rdrop. rewrite rev_app_distr. simpl. rewrite H. reflexivity.
Qed.

Lemma rdrop_idem (f : char -> bool) (s : str) : rdrop f (rdrop f s) = rdrop f s.
Proof.
  unfold rdrop. rewrite rev_involutive, drop_while_idem. reflexivity.
Qed.

Lemma rdrop_In (f : char -> bool) (s : str) (c : char) :
  In c (rdrop f s) -> In c s.
Proof.
  unfold rdrop. rewrite <- in_rev. intros H. apply in_rev.
  exact (drop_while_In _ _ _ H).
Qed.

Lemma rstrip_rdrop (s : str) : Py.rstrip s = rdrop Py.isspace s.
Proof. reflexivity. Qed.

Lemma rstrip_keeps_head (c : char) (s : str) :
  Py.isspace c = false -> exists r, Py.rstrip (c :: s) = c :: r.
Proof.
  intros H. rewrite rstrip_rdrop, rdrop_cons. rewrite H.
  destruct (rdrop Py.isspace s); eauto.
Qed.

Lemma strip_trimmed (s : str) : trimmed (Py.strip s).
Proof.
  unfold trimmed, Py.strip. split.
  - destruct (Py.lstrip s) as [|c t] eqn:E.
    + reflexivity.
    + pose proof (drop_while_head _ _ _ _ E) as Hc.
      destruct (rstrip_keeps_head c t Hc) as [r ->].
      unfold Py.lstrip. simpl. rewrite Hc. reflexivity.
  - rewrite !rstrip_rdrop. apply rdrop_idem.
Qed.

Lemma trimmed_strip (s : str) : trimmed s -> Py.strip s = s.
Proof. intros [H1 H2]. unfold Py.strip. rewrite H1. exact H2. Qed.

Lemma strip_idem (s : str) : Py.strip (Py.strip s) = Py.strip s.
Proof. apply trimmed_strip, strip_trimmed. Qed.

Lemma strip_In (s : str) (c : char) : In c (Py.strip s) -> In c s.
Proof.
  unfold Py.strip. rewrite rstrip_rdrop. intros H.
  apply rdrop_In in H. exact (drop_while_In _ _ _ H).
Qed.

(** Padding a trimmed, non-empty string with one space on each side and
    stripping gives the string back. *)
Lemma strip_pad (s : str) :
  trimmed s -> s <> [] -> Py.strip (lit " " ++ s ++ lit " ") = s.
Proof.
  intros [H1 H2] Hne. destruct s as [|c t]; [congruence|].
  assert (Hc : Py.isspace c = false).
  { unfold Py.lstrip in H1. simpl in H1. destruct (Py.isspace c) eqn:E; [|reflexivity].
    exfalso. pose proof (drop_while_length Py.isspace t) as L.
    rewrite H1 in L. simpl in L. lia. }
  unfold Py.strip, Py.lstrip. change (lit " ") with [32]. simpl. rewrite Hc.
  change (c :: t ++ [32]) with ((c :: t) ++ [32]).
  rewrite rstrip_rdrop, rdrop_snoc_drop by reflexivity. exact H2.
Qed.

Lemma strip_space : Py.strip (lit " ") = [].
Proof. reflexivity. Qed.

End StringFacts.

(** ** Splitting on one character and joining *)
Section SplitJoin.

Variable c : char.

Lemma split_go_free (x cur : str) :
  ~ In c x -> Py.split_go [c] O cur x = [rev cur ++ x].
Proof.
  revert cur; induction x as [|d x IH]; intros cur Hx; simpl.
  - rewrite app_nil_r. reflexivity.
  - destruct (N.eqb_spec d c) as [->|Hd]; [exfalso; apply Hx; left; reflexivity|].
    simpl. rewrite IH by (intros H; apply Hx; right; exact H).
    simpl. rewrite <- app_assoc. reflexivity.
Qed.

Lemma split_go_at_sep (x cur t : str) :
  ~ In c x ->
  Py.split_go [c] O cur (x ++ c :: t) = (rev cur ++ x) :: Py.split_go [c] O [] t.
Proof.
  revert cur; induction x as [|d x IH]; intros cur Hx; simpl.
  - rewrite N.eqb_refl, app_nil_r. reflexivity.
  - destruct (N.eqb_spec d c) as [->|Hd]; [exfalso; apply Hx; left; reflexivity|].
    simpl. rewrite IH by (intros H; apply Hx; right; exact H).
    simpl. rewrite <- app_assoc. reflexivity.
Qed.

Lemma split_go_join (cells : list str) :
  cells <> [] -> Forall (fun x => ~ In c x) cells ->
  Py.split_go [c] O [] (Py.join [c] cells) = cells.
Proof.
  induction cells as [|x cells IH]; intros Hne Hall; [congruence|].
  inversion Hall as [|? ? Hx Hrest]; subst.
  destruct cells as [|y cells].
  - simpl. apply split_go_free. exact Hx.
  - change (Py.join [c] (x :: y :: cells)) with (x ++ c :: Py.join [c] (y :: cells)).
    rewrite split_go_at_sep by exact Hx. simpl rev. simpl app at 1.
    rewrite IH; [reflexivity|discriminate|exact Hrest].
Qed.

Lemma split_go_parts_free (s cur : str) :
  ~ In c cur -> Forall (fun x => ~ In c x) (Py.split_go [c] O cur s).
Proof.
  revert cur; induction s as [|d s IH]; intros cur Hcur; simpl.
  - constructor; [|constructor]. rewrite <- in_rev. exact Hcur.
  - destruct (N.eqb_spec d c) as [->|Hd]; simpl.
    + constructor; [rewrite <- in_rev; exact Hcur|]. apply IH. intros [].
    + apply IH. intros [H|H]; [congruence|exact (Hcur H)].
Qed.

Lemma split_go_length (s cur : str) :
  length (Py.split_go [c] O cur s) = S (Py.count s c).
Proof.
  unfold Py.count. revert cur; induction s as [|d s IH]; intros cur; simpl.
  - reflexivity.
  - rewrite (N.eqb_sym c d). destruct (d =? c); simpl; rewrite IH; reflexivity.
Qed.

Lemma join_snoc_empty (cells : list str) :
  cells <> [] -> Py.join [c] (cells ++ [[]]) = Py.join [c] cells ++ [c].
Proof.
  induction cells as [|x cells IH]; intros Hne; [congruence|].
  destruct cells as [|y cells].
  - simpl. reflexivity.
  - change (Py.join [c] ((x :: y :: cells) ++ [[]]))
      with (x ++ c :: Py.join [c] ((y :: cells) ++ [[]])).
    rewrite IH by discriminate.
    change (Py.join [c] (x :: y :: cells)) with (x ++ c :: Py.join [c] (y :: cells)).
    rewrite <- app_assoc. reflexivity.
Qed.

(** A rebuilt line splits back into an empty first part, its cells and an
    empty last part. *)
Lemma split_go_rebuilt (cells : list str) :
  cells <> [] -> Forall (fun x => ~ In c x) cells ->
  Py.split_go [c] O [] ([c] ++ Py.join [c] cells ++ [c]) = [] :: cells ++ [[]].
Proof.
  intros Hne Hall.
  rewrite <- join_snoc_empty by exact Hne.
  change ([c] ++ Py.join [c] (cells ++ [[]])) with ([] ++ c :: Py.join [c] (cells ++ [[]])).
  rewrite split_go_at_sep by (intros []). simpl. f_equal.
  apply split_go_join.
  - destruct cells; discriminate.
  - apply Forall_app; split; [exact Hall|]. constructor; [intros []|constructor].
Qed.

End SplitJoin.

Lemma slice_rebuilt {A : Type} (a b : A) (l : list A) :
  Py.slice_1_m1 (a :: l ++ [b]) = l.
Proof. unfold Py.slice_1_m1. simpl. apply removelast_last. Qed.

Lemma slice_nonempty {A : Type} (l : list A) :
  (3 <= length l)%nat -> Py.slice_1_m1 l <> [].
Proof.
  destruct l as [|a [|b [|d l]]]; simpl; try lia. intros _.
  unfold Py.slice_1_m1. simpl. destruct l; discriminate.
Qed.

Lemma slice_In {A : Type} (l : list A) (x : A) : In x (Py.slice_1_m1 l) -> In x l.
Proof.
  unfold Py.slice_1_m1. destruct l as [|a l]; simpl; [tauto|].
  intros H. right. revert H. induction l as [|b l IH]; simpl; [tauto|].
  destruct l; simpl in *; [tauto|]. intros [H|H]; [left; exact H|right; apply IH; exact H].
Qed.

(** ** The separator pattern *)
Section SeparatorPattern.

Lemma drop_dashes (s : str) :
  exists n, s = repeat DASH n ++ Py.drop_while (N.eqb DASH) s.
Proof.
  induction s as [|d s [n IH]]; simpl.
  - exists O. reflexivity.
  - destruct (N.eqb_spec DASH d) as [<-|Hd].
    + exists (S n). simpl. f_equal. exact IH.
    + exists O. reflexivity.
Qed.

Lemma drop_dashes_stop (n : nat) (t : str) :
  Py.startswith t [DASH] = false ->
  Py.drop_while (N.eqb DASH) (repeat DASH n ++ t) = t.
Proof.
  intros Ht. induction n as [|n IH]; simpl.
  - destruct t as [|d t]; [reflexivity|]. simpl in *.
    rewrite andb_true_r in Ht. rewrite N.eqb_sym, Ht. reflexivity.
  - exact IH.
Qed.

Lemma opt_colon_split (s : str) :
  exists b, s = colon_if b ++ Re.opt_colon s.
Proof.
  destruct s as [|d s]; [exists false; reflexivity|].
  simpl. destruct (N.eqb_spec d COLON) as [->|Hd].
  - exists true. reflexivity.
  - exists false. reflexivity.
Qed.

Lemma match_sep_shape (s : str) :
  Re.match_sep s = true <-> sep_shape s \/ exists s', sep_shape s' /\ s = s' ++ [LF].
Proof.
  split.
  - unfold Re.match_sep. destruct (opt_colon_split s) as [l Hl].
    destruct (Re.opt_colon s) as [|d s1] eqn:E1; [discriminate|].
    destruct (N.eqb_spec d DASH) as [->|Hd]; [|discriminate].
    destruct (drop_dashes (DASH :: s1)) as [n Hn].
    destruct n as [|n].
    { exfalso. change (DASH :: s1 = Py.drop_while (N.eqb DASH) s1) in Hn.
      pose proof (drop_while_length (N.eqb DASH) s1) as L.
      rewrite <- Hn in L. simpl in L. lia. }
    destruct (opt_colon_split (Py.drop_while (N.eqb DASH) (DASH :: s1))) as [r Hr].
    destruct (Re.opt_colon (Py.drop_while (N.eqb DASH) (DASH :: s1))) as [|e [|e' rest]] eqn:E2;
      intros Hm; try discriminate.
    + left. exists l, n, r. rewrite Hl, Hn, Hr, app_nil_r. reflexivity.
    + apply N.eqb_eq in Hm. subst e. right.
      exists (colon_if l ++ repeat DASH (S n) ++ colon_if r). split.
      * exists l, n, r. reflexivity.
      * rewrite Hl at 1. rewrite Hn, Hr. rewrite <- !app_assoc. reflexivity.
  - assert (Hshape : forall l n r tail, tail = [] \/ tail = [LF] ->
              Re.match_sep (colon_if l ++ repeat DASH (S n) ++ colon_if r ++ tail) = true).
    { intros l n r tail Htail. unfold Re.match_sep.
      assert (E : Re.opt_colon (colon_if l ++ repeat DASH (S n) ++ colon_if r ++ tail)
                  = repeat DASH (S n) ++ colon_if r ++ tail) by (destruct l; reflexivity).
      rewrite E. cbn [repeat app]. rewrite N.eqb_refl.
      change (DASH :: repeat DASH n ++ colon_if r ++ tail)
        with (repeat DASH (S n) ++ colon_if r ++ tail).
      rewrite drop_dashes_stop by (destruct r, Htail as [-> | ->]; reflexivity).
      destruct r, Htail as [-> | ->]; reflexivity. }
    intros [(l & n & r & ->)|(s' & (l & n & r & ->) & ->)].
    + rewrite <- (app_nil_r (colon_if r)). apply Hshape. left; reflexivity.
    + rewrite <- !app_assoc. apply Hshape. right; reflexivity.
Qed.

Lemma trimmed_no_final_space (s : str) (d : char) :
  Py.isspace d = true -> Py.rstrip (s ++ [d]) = s ++ [d] -> False.
Proof.
  intros Hd H. rewrite rstrip_rdrop, rdrop_snoc_drop in H by exact Hd.
  pose proof (drop_while_length Py.isspace (rev s)) as L.
  fold (rev (Py.drop_while Py.isspace (rev s))) in H.
  apply (f_equal (@length _)) in H. unfold rdrop in H.
  rewrite length_rev, length_app in H. rewrite length_rev in L. simpl in H. lia.
Qed.

(** On a stripped cell the pattern matches exactly the language [:?-+:?]. *)
Lemma match_sep_trimmed (s : str) :
  trimmed s -> (Re.match_sep s = true <-> sep_shape s).
Proof.
  intros [_ Hr]. rewrite match_sep_shape. split; [|auto].
  intros [H|(s' & _ & ->)]; [exact H|].
  exfalso. exact (trimmed_no_final_space s' LF eq_refl Hr).
Qed.

Lemma sep_shape_colons (l r : bool) (n : nat) :
  let s := colon_if l ++ repeat DASH (S n) ++ colon_if r in
  Py.startswith s (lit ":") = l /\ Py.endswith s (lit ":") = r.
Proof.
  simpl. split.
  - destruct l; reflexivity.
  - change (lit ":") with [COLON]. destruct r; cbn [colon_if].
    + change (DASH :: repeat DASH n ++ [COLON])
        with ((DASH :: repeat DASH n) ++ [COLON]).
      rewrite app_assoc, endswith_snoc. reflexivity.
    + rewrite app_nil_r, repeat_cons, app_assoc, endswith_snoc. reflexivity.
Qed.

Lemma sep_shape_nonempty (s : str) : sep_shape s -> s <> [].
Proof. intros (l & n & r & ->). destruct l; discriminate. Qed.

End SeparatorPattern.

(** ** The rewrite of one line *)
Section Normalizer.

(** [normalize_table_line] never raises, and this is what it returns. *)
Lemma normalize_table_line_eq (line : str) :
  normalize_table_line line =
  Ret (if (length (parts_of line) <? 3)%nat then line
       else rebuilt (map (normalized_cell (is_separator (cells line))) (cells line))
            ++ (if Py.endswith line [LF] then [LF] else [])).
Proof.
  unfold normalize_table_line, cells, parts_of, rebuilt.
  change (Py.split (Py.rstrip_chars [LF] line) (lit "|"))
    with (Ret (Py.split_go (lit "|") O [] (Py.rstrip_chars [LF] line))).
  cbn [bind].
  destruct (length _ <? 3)%nat; [reflexivity|].
  destruct (Py.endswith line [LF]).
  - rewrite <- !app_assoc. reflexivity.
  - rewrite app_nil_r. reflexivity.
Qed.

Lemma parts_of_length (line : str) :
  length (parts_of line) = S (Py.count (Py.rstrip_chars [LF] line) PIPE).
Proof. apply (split_go_length PIPE). Qed.

Lemma cells_free (line : str) : Forall (fun x => ~ In PIPE x) (cells line).
Proof.
  apply List.Forall_forall. intros x Hx. apply slice_In in Hx.
  pose proof (split_go_parts_free PIPE (Py.rstrip_chars [LF] line) [] (fun H => H)) as F.
  rewrite List.Forall_forall in F. exact (F x Hx).
Qed.

Lemma normalized_cell_blank (b : bool) (p : str) :
  blank p -> normalized_cell b p = lit " ".
Proof.
  unfold blank, normalized_cell. intros ->. simpl. rewrite andb_false_r. reflexivity.
Qed.

Lemma normalized_cell_content (p : str) :
  ~ blank p -> normalized_cell false p = lit " " ++ Py.strip p ++ lit " ".
Proof.
  unfold blank, normalized_cell. intros H. rewrite str_eqb_nil.
  destruct (Py.strip p); [congruence|reflexivity].
Qed.

Lemma normalized_cell_marker (p : str) :
  ~ blank p ->
  normalized_cell true p =
  marker (Py.startswith (Py.strip p) (lit ":")) (Py.endswith (Py.strip p) (lit ":")).
Proof.
  unfold blank, normalized_cell, marker. intros H. rewrite str_eqb_nil.
  destruct (Py.strip p) as [|d t] eqn:E; [congruence|]. cbn [andb negb].
  destruct (Py.startswith (d :: t) (lit ":")), (Py.endswith (d :: t) (lit ":")); reflexivity.
Qed.

Lemma blank_dec (p : str) : {blank p} + {~ blank p}.
Proof. unfold blank. destruct (Py.strip p); [left; reflexivity|right; discriminate]. Qed.

Lemma normalized_cell_free (b : bool) (p : str) :
  ~ In PIPE p -> ~ In PIPE (normalized_cell b p).
Proof.
  intros Hp. destruct (blank_dec p) as [Hb|Hb].
  - rewrite normalized_cell_blank by exact Hb. intros [H|[]]; discriminate H.
  - destruct b.
    + rewrite normalized_cell_marker by exact Hb.
      destruct (Py.startswith _ _), (Py.endswith _ _); vm_compute; intuition discriminate.
    + rewrite normalized_cell_content by exact Hb.
      rewrite !in_app_iff. intros [H|[H|H]].
      * destruct H as [H|[]]; discriminate H.
      * apply Hp. exact (strip_In _ _ H).
      * destruct H as [H|[]]; discriminate H.
Qed.

(** Stripping an emitted cell gives the stripped input cell back, or the bare
    marker on a separator row. *)
Lemma strip_normalized_content (p : str) :
  Py.strip (normalized_cell false p) = Py.strip p.
Proof.
  destruct (blank_dec p) as [Hb|Hb].
  - rewrite normalized_cell_blank by exact Hb. rewrite Hb. reflexivity.
  - rewrite normalized_cell_content by exact Hb.
    apply strip_pad; [apply strip_trimmed|exact Hb].
Qed.

(** An emitted cell is a fixed point of the rewrite of cells, whatever the
    second decision on the row, except that a content cell must again be
    treated as content. *)
Lemma normalized_cell_again (b b' : bool) (p : str) :
  (b = false -> ~ blank p -> b' = false) ->
  normalized_cell b' (normalized_cell b p) = normalized_cell b p.
Proof.
  intros Hb'. destruct (blank_dec p) as [Hb|Hb].
  - rewrite (normalized_cell_blank b p Hb). destruct b'; reflexivity.
  - destruct b.
    + rewrite (normalized_cell_marker p Hb).
      destruct (Py.startswith _ _), (Py.endswith _ _), b'; reflexivity.
    + rewrite (Hb' eq_refl Hb).
      assert (Hn : ~ blank (normalized_cell false p)).
      { unfold blank. rewrite strip_normalized_content. exact Hb. }
      rewrite (normalized_cell_content _ Hn), strip_normalized_content.
      symmetry. apply normalized_cell_content. exact Hb.
Qed.

Lemma is_separator_true (inner : list str) :
  is_separator inner = true <->
  forall p, In p inner -> ~ blank p -> Re.match_sep (Py.strip p) = true.
Proof.
  unfold is_separator, blank. rewrite forallb_forall. split.
  - intros H p Hp Hb. apply H. apply filter_In. split; [exact Hp|].
    rewrite str_eqb_nil. destruct (Py.strip p); [congruence|reflexivity].
  - intros H p Hp. apply filter_In in Hp. destruct Hp as [Hp Hb].
    apply H; [exact Hp|]. intros E. rewrite E in Hb. discriminate Hb.
Qed.

Lemma is_separator_false (inner : list str) :
  is_separator inner = false <->
  exists p, In p inner /\ ~ blank p /\ Re.match_sep (Py.strip p) = false.
Proof.
  split.
  - intros H. unfold is_separator in H.
    induction inner as [|q inner IH]; [discriminate|].
    simpl in H. destruct (negb (Py.str_eqb (Py.strip q) [])) eqn:Eq.
    + simpl in H. apply andb_false_iff in H. destruct H as [H|H].
      * exists q. split; [left; reflexivity|]. split; [|exact H].
        unfold blank. intros E. rewrite E in Eq. discriminate Eq.
      * destruct (IH H) as (p & Hp & Hb & Hm). exists p. split; [right; exact Hp|auto].
    + destruct (IH H) as (p & Hp & Hb & Hm). exists p. split; [right; exact Hp|auto].
  - intros (p & Hp & Hb & Hm). destruct (is_separator inner) eqn:E; [|reflexivity].
    rewrite is_separator_true in E. rewrite (E p Hp Hb) in Hm. discriminate.
Qed.

(** A content row stays a content row when its cells are rewritten. *)
Lemma is_separator_false_kept (inner : list str) :
  is_separator inner = false ->
  is_separator (map (normalized_cell false) inner) = false.
Proof.
  rewrite !is_separator_false. intros (p & Hp & Hb & Hm).
  exists (normalized_cell false p). split; [apply in_map; exact Hp|].
  unfold blank. rewrite strip_normalized_content. auto.
Qed.

Lemma rstrip_LF_rebuilt (cs : list str) (ending : str) :
  ending = [] \/ ending = [LF] ->
  Py.rstrip_chars [LF] (rebuilt cs ++ ending) = rebuilt cs.
Proof.
  intros Hend.
  assert (ER : rebuilt cs = ([PIPE] ++ Py.join [PIPE] cs) ++ [PIPE])
    by (unfold rebuilt; rewrite <- app_assoc; reflexivity).
  assert (E : Py.rstrip_chars [LF] (rebuilt cs) = rebuilt cs)
    by (rewrite ER; apply (rdrop_snoc_stop (fun c => Py.mem c [LF])); reflexivity).
  destruct Hend as [-> | ->].
  - rewrite app_nil_r. exact E.
  - rewrite <- E at 2.
    apply (rdrop_snoc_drop (fun c => Py.mem c [LF])). reflexivity.
Qed.

(** The cells of a rebuilt line are the cells it was built from. *)
Lemma cells_rebuilt (cs : list str) (ending : str) :
  cs <> [] -> Forall (fun x => ~ In PIPE x) cs ->
  ending = [] \/ ending = [LF] ->
  parts_of (rebuilt cs ++ ending) = [] :: cs ++ [[]].
Proof.
  intros Hne Hfree Hend. unfold parts_of. rewrite rstrip_LF_rebuilt by exact Hend.
  apply (split_go_rebuilt PIPE); assumption.
Qed.

Lemma endswith_rebuilt (cs : list str) (ending : str) :
  ending = [] \/ ending = [LF] ->
  Py.endswith (rebuilt cs ++ ending) [LF] = Py.str_eqb ending [LF].
Proof.
  assert (ER : rebuilt cs = ([PIPE] ++ Py.join [PIPE] cs) ++ [PIPE])
    by (unfold rebuilt; rewrite <- app_assoc; reflexivity).
  intros [-> | ->].
  - rewrite app_nil_r, ER, endswith_snoc. reflexivity.
  - rewrite endswith_snoc. reflexivity.
Qed.

End Normalizer.

(** ** Table rows have at least three parts *)
Section TableRows.

Lemma count_app (a b : str) (c : char) :
  Py.count (a ++ b) c = (Py.count a c + Py.count b c)%nat.
Proof. unfold Py.count. rewrite List.filter_app, length_app. reflexivity. Qed.

Lemma count_rev (s : str) (c : char) : Py.count (rev s) c = Py.count s c.
Proof.
  induction s as [|d s IH]; [reflexivity|].
  simpl rev. rewrite count_app, IH. unfold Py.count. simpl.
  destruct (c =? d); simpl; lia.
Qed.

Lemma count_drop_while (f : char -> bool) (s : str) (c : char) :
  f c = false -> Py.count (Py.drop_while f s) c = Py.count s c.
Proof.
  intros Hc. induction s as [|d s IH]; [reflexivity|].
  simpl. destruct (f d) eqn:E; [|reflexivity].
  rewrite IH. unfold Py.count. simpl.
  destruct (N.eqb_spec c d) as [->|_]; [congruence|reflexivity].
Qed.

Lemma count_rdrop (f : char -> bool) (s : str) (c : char) :
  f c = false -> Py.count (rdrop f s) c = Py.count s c.
Proof.
  intros Hc. unfold rdrop. rewrite count_rev, count_drop_while, count_rev by exact Hc.
  reflexivity.
Qed.

Lemma count_strip_pipe (s : str) : Py.count (Py.strip s) PIPE = Py.count s PIPE.
Proof.
  unfold Py.strip, Py.lstrip. rewrite rstrip_rdrop.
  rewrite count_rdrop, count_drop_while by reflexivity. reflexivity.
Qed.

Lemma is_table_row_pipes (line : str) :
  is_table_row line = true -> (2 <= Py.count line PIPE)%nat.
Proof.
  unfold is_table_row. destruct (_ || _); [discriminate|].
  rewrite count_strip_pipe.
  destruct (Nat.ltb_spec (Py.count line PIPE) 2); [discriminate|]. intros _. assumption.
Qed.

Lemma is_table_row_parts (line : str) :
  is_table_row line = true -> (3 <= length (parts_of line))%nat.
Proof.
  intros H. apply is_table_row_pipes in H.
  rewrite parts_of_length.
  change (Py.rstrip_chars [LF] line) with (rdrop (fun c => Py.mem c [LF]) line).
  rewrite count_rdrop by reflexivity. lia.
Qed.

(** What a line with at least two pipes is rewritten to. *)
Lemma normalize_table_line_rebuilt (line : str) :
  (3 <= length (parts_of line))%nat ->
  normalize_table_line line =
  Ret (rebuilt (map (normalized_cell (is_separator (cells line))) (cells line))
       ++ (if Py.endswith line [LF] then [LF] else [])).
Proof.
  intros H. rewrite normalize_table_line_eq.
  destruct (Nat.ltb_spec (length (parts_of line)) 3); [lia|reflexivity].
Qed.

Lemma ending_cases (line : str) :
  let ending := if Py.endswith line [LF] then [LF] else [] in
  (ending = [] \/ ending = [LF]) /\ Py.str_eqb ending [LF] = Py.endswith line [LF].
Proof. simpl. destruct (Py.endswith line [LF]); split; auto. Qed.

(** The cells of the rewritten line are the rewritten cells of the line. *)
Lemma cells_normalized (line : str) :
  (3 <= length (parts_of line))%nat ->
  parts_of (rebuilt (map (normalized_cell (is_separator (cells line))) (cells line))
            ++ (if Py.endswith line [LF] then [LF] else []))
  = [] :: map (normalized_cell (is_separator (cells line))) (cells line) ++ [[]].
Proof.
  intros H. apply cells_rebuilt.
  - intros E. apply map_eq_nil in E. exact (slice_nonempty _ H E).
  - apply List.Forall_forall. intros x Hx. apply in_map_iff in Hx.
    destruct Hx as (p & <- & Hp). apply normalized_cell_free.
    pose proof (cells_free line) as F. rewrite List.Forall_forall in F. exact (F p Hp).
  - apply ending_cases.
Qed.

(** Rewriting a rewritten line changes nothing. *)
Lemma normalize_table_line_idempotent (line out : str) :
  normalize_table_line line = Ret out -> normalize_table_line out = Ret out.
Proof.
  intros H. destruct (Nat.ltb_spec (length (parts_of line)) 3) as [Hlt|Hge].
  - rewrite normalize_table_line_eq in H.
    destruct (Nat.ltb_spec (length (parts_of line)) 3); [|lia].
    apply Ret_inj in H. subst out. rewrite normalize_table_line_eq.
    destruct (Nat.ltb_spec (length (parts_of line)) 3); [reflexivity|lia].
  - rewrite (normalize_table_line_rebuilt line Hge) in H. apply Ret_inj in H. subst out.
    pose proof (cells_normalized line Hge) as P.
    set (b := is_separator (cells line)) in *.
    set (cs := map (normalized_cell b) (cells line)) in *.
    set (ending := if Py.endswith line [LF] then [LF] else []) in *.
    assert (Hparts : (3 <= length (parts_of (rebuilt cs ++ ending)))%nat).
    { rewrite P. simpl. rewrite length_app. simpl.
      assert (cs <> []) by (intros E; apply map_eq_nil in E; exact (slice_nonempty _ Hge E)).
      destruct cs; [congruence|simpl; lia]. }
    rewrite (normalize_table_line_rebuilt _ Hparts).
    assert (Hcells : cells (rebuilt cs ++ ending) = cs).
    { unfold cells. rewrite P. apply slice_rebuilt. }
    rewrite Hcells.
    assert (Hend : Py.endswith (rebuilt cs ++ ending) [LF] = Py.endswith line [LF]).
    { rewrite endswith_rebuilt by apply ending_cases. apply ending_cases. }
    rewrite Hend. fold ending. do 3 f_equal.
    unfold cs at 2 3. rewrite map_map. apply map_ext_in. intros p Hp.
    apply normalized_cell_again. intros Hb _. unfold cs. rewrite Hb.
    apply is_separator_false_kept. exact Hb.
Qed.

End TableRows.

(** ** What the rewrite of one line guarantees *)
Section RewriteGuarantees.

Lemma lookup_map {A B : Type} (f : A -> B) (l : list A) (i : nat) (x : A) :
  l !! i = Some x -> map f l !! i = Some (f x).
Proof.
  revert i; induction l as [|a l IH]; intros [|i]; simpl; try discriminate.
  - intros [= ->]. reflexivity.
  - apply IH.
Qed.

Lemma lookup_In {A : Type} (l : list A) (i : nat) (x : A) : l !! i = Some x -> In x l.
Proof.
  revert i; induction l as [|a l IH]; intros [|i]; simpl; try discriminate.
  - intros [= ->]. left; reflexivity.
  - intros H. right. exact (IH i H).
Qed.

(** The rewritten line of a line with at least two pipes, and its cells. *)
Lemma normalize_table_line_cells (line : str) :
  (3 <= length (parts_of line))%nat ->
  exists out,
    normalize_table_line line = Ret out /\
    out = rebuilt (map (normalized_cell (is_separator (cells line))) (cells line))
          ++ (if Py.endswith line [LF] then [LF] else []) /\
    cells out = map (normalized_cell (is_separator (cells line))) (cells line).
Proof.
  intros H. eexists. split; [apply normalize_table_line_rebuilt; exact H|].
  split; [reflexivity|]. unfold cells at 1. rewrite (cells_normalized line H).
  apply slice_rebuilt.
Qed.

(** C4. A row is classified as a separator row exactly when each of its
    non-blank cells, stripped, is an optional colon, one or more dashes and an
    optional colon. On a row whose cells are all blank that holds vacuously,
    yet the row is not treated as a separator row: its cells are emitted as
    for a content row, each as a single space, and no alignment marker is
    written. *)
Theorem separator_classification (inner : list str) :
  (is_separator inner = true <->
   forall p, In p inner -> ~ blank p -> sep_shape (Py.strip p)) /\
  ((forall p, In p inner -> blank p) ->
   map (normalized_cell (is_separator inner)) inner = map (normalized_cell false) inner /\
   forall cell, In cell (map (normalized_cell (is_separator inner)) inner) -> cell = lit " ").
Proof.
  split.
  - rewrite is_separator_true. split; intros H p Hp Hb.
    + apply match_sep_trimmed; [apply strip_trimmed|]. exact (H p Hp Hb).
    + apply match_sep_trimmed; [apply strip_trimmed|]. exact (H p Hp Hb).
  - intros Hblank. split.
    + apply map_ext_in. intros p Hp.
      rewrite !normalized_cell_blank by exact (Hblank p Hp). reflexivity.
    + intros cell Hc. apply in_map_iff in Hc. destruct Hc as (p & <- & Hp).
      apply normalized_cell_blank. exact (Hblank p Hp).
Qed.

Lemma separator_classification_witness :
  is_separator [lit " "; lit ""] = true /\
  map (normalized_cell (is_separator [lit " "; lit ""])) [lit " "; lit ""]
  = map (normalized_cell false) [lit " "; lit ""].
Proof.
  split; [reflexivity|].
  apply (separator_classification [lit " "; lit ""]).
  intros p [<-|[<-|[]]]; reflexivity.
Defined.

(** C5. On a table row classified as a separator row, each non-blank cell is
    an optional colon, dashes and an optional colon, and is rewritten to a
    space, the leading colon if the stripped cell starts with one, three
    dashes, the trailing colon if it ends with one, and a space; the line
    [|---|:--:|] becomes [| --- | :---: |]. *)
Theorem separator_cells_rewritten :
  (forall line : str,
     is_table_row line = true -> is_separator (cells line) = true ->
     exists out,
       normalize_table_line line = Ret out /\
       length (cells out) = length (cells line) /\
       forall (i : nat) (p : str),
         cells line !! i = Some p -> ~ blank p ->
         exists (l : bool) (n : nat) (r : bool),
           Py.strip p = colon_if l ++ repeat DASH (S n) ++ colon_if r /\
           Py.startswith (Py.strip p) (lit ":") = l /\
           Py.endswith (Py.strip p) (lit ":") = r /\
           cells out !! i = Some (lit " " ++ colon_if l ++ lit "---" ++ colon_if r ++ lit " ")) /\
  normalize_table_line (lit "|---|:--:|") = Ret (lit "| --- | :---: |").
Proof.
  split; [|reflexivity].
  intros line Hrow Hsep.
  destruct (normalize_table_line_cells line (is_table_row_parts line Hrow))
    as (out & Hout & _ & Hcells).
  exists out. split; [exact Hout|]. rewrite Hcells, Hsep. split; [apply length_map|].
  intros i p Hi Hb.
  assert (Hshape : sep_shape (Py.strip p)).
  { apply match_sep_trimmed; [apply strip_trimmed|].
    apply (proj1 (is_separator_true _) Hsep p (lookup_In _ _ _ Hi) Hb). }
  destruct Hshape as (l & n & r & E). exists l, n, r.
  destruct (sep_shape_colons l r n) as [Hl Hr]. rewrite <- E in Hl, Hr.
  repeat split; try assumption.
  rewrite (lookup_map _ _ _ _ Hi), (normalized_cell_marker p Hb), Hl, Hr. reflexivity.
Qed.

Lemma separator_cells_rewritten_witness :
  exists out,
    normalize_table_line (lit "| :-- |-:|") = Ret out /\
    length (cells out) = length (cells (lit "| :-- |-:|")).
Proof.
  destruct (proj1 separator_cells_rewritten (lit "| :-- |-:|") eq_refl eq_refl)
    as (out & H1 & H2 & _).
  exists out. split; assumption.
Defined.

(** C6. The rewritten form of a table row has as many cells as the row: the
    cells of the output are the rewritten cells of the input, one for one, and
    a blank cell is kept as a single space. *)
Theorem cell_count_preserved (line : str) :
  is_table_row line = true ->
  exists out,
    normalize_table_line line = Ret out /\
    length (cells out) = length (cells line) /\
    forall (i : nat) (p : str),
      cells line !! i = Some p -> blank p -> cells out !! i = Some (lit " ").
Proof.
  intros Hrow.
  destruct (normalize_table_line_cells line (is_table_row_parts line Hrow))
    as (out & Hout & _ & Hcells).
  exists out. split; [exact Hout|]. rewrite Hcells. split; [apply length_map|].
  intros i p Hi Hb. rewrite (lookup_map _ _ _ _ Hi).
  rewrite (normalized_cell_blank _ p Hb). reflexivity.
Qed.

Lemma cell_count_preserved_witness :
  exists out,
    normalize_table_line (lit "| x | |") = Ret out /\
    length (cells out) = length (cells (lit "| x | |")).
Proof.
  destruct (cell_count_preserved (lit "| x | |") eq_refl) as (out & H1 & H2 & _).
  exists out. split; assumption.
Defined.

(** C9. [normalize_table_line] returns a string on every input and never
    raises; so, outside a fence, the loop replaces every table row by its
    rebuilt form and never takes the handler that keeps the line. *)
Theorem normalize_table_line_total (line : str) :
  exists out,
    normalize_table_line line = Ret out /\
    forall st : loop_state,
      is_fence line = false -> in_fence st = false -> is_table_row line = true ->
      out = rebuilt (map (normalized_cell (is_separator (cells line))) (cells line))
            ++ (if Py.endswith line [LF] then [LF] else []) /\
      process_line st line =
      {| in_fence := false;
         changed := if negb (Py.str_eqb out line) then true else changed st;
         out_lines := out_lines st ++ [out] |}.
Proof.
  eexists. split; [apply normalize_table_line_eq|].
  intros st Hfence Hin Hrow.
  pose proof (is_table_row_parts line Hrow) as Hparts.
  destruct (Nat.ltb_spec (length (parts_of line)) 3); [lia|].
  split; [reflexivity|].
  unfold process_line. rewrite Hfence, Hin, Hrow.
  rewrite (normalize_table_line_rebuilt line Hparts). reflexivity.
Qed.

Lemma normalize_table_line_total_witness :
  exists out,
    normalize_table_line (lit "|a|b|") = Ret out /\
    out_lines (process_line loop_init (lit "|a|b|")) = [out].
Proof.
  destruct (normalize_table_line_total (lit "|a|b|")) as (out & H1 & H2).
  exists out. split; [exact H1|].
  destruct (H2 loop_init eq_refl eq_refl eq_refl) as [_ ->]. reflexivity.
Defined.

(** The final newline of a line is kept: present after the rewrite exactly
    when it was present before. *)
Lemma normalize_keeps_final_newline (line out : str) :
  normalize_table_line line = Ret out ->
  Py.endswith out [LF] = Py.endswith line [LF].
Proof.
  rewrite normalize_table_line_eq. intros H. apply Ret_inj in H. subst out.
  destruct (length (parts_of line) <? 3)%nat; [reflexivity|].
  rewrite endswith_rebuilt by apply ending_cases. apply ending_cases.
Qed.

End RewriteGuarantees.

(** ** Fences *)
Section Fences.

Lemma rdrop_cons_keep (f : char -> bool) (c : char) (s : str) :
  f c = false -> rdrop f (c :: s) = c :: rdrop f s.
Proof. intros H. rewrite rdrop_cons, H. destruct (rdrop f s); reflexivity. Qed.

Lemma rdrop_prefix (f : char -> bool) (s : str) : exists k, s = rdrop f s ++ k.
Proof.
  induction s as [|c s [k IH]]; [exists []; reflexivity|].
  rewrite rdrop_cons. destruct (rdrop f s) as [|d r] eqn:E.
  - destruct (f c); [exists (c :: s)|exists s]; reflexivity.
  - exists k. simpl. f_equal. exact IH.
Qed.

(** Stripping on the right does not change whether a line starts with the
    fence: [is_fence] may as well look at the stripped line. *)
Lemma is_fence_strip (line : str) :
  is_fence line = Py.startswith (Py.strip line) (lit "```").
Proof.
  unfold is_fence, Py.strip. set (x := Py.lstrip line).
  destruct (Py.startswith x (lit "```")) eqn:E.
  - apply startswith_iff in E. destruct E as [k ->]. symmetry.
    change (lit "```" ++ k) with (BACKTICK :: BACKTICK :: BACKTICK :: k).
    rewrite rstrip_rdrop, !rdrop_cons_keep by reflexivity. reflexivity.
  - destruct (Py.startswith (Py.rstrip x) (lit "```")) eqn:E'; [|reflexivity].
    apply startswith_iff in E'. destruct E' as [k Hk].
    destruct (rdrop_prefix Py.isspace x) as [k' Hx].
    rewrite <- rstrip_rdrop, Hk, <- app_assoc in Hx.
    rewrite Hx, startswith_app in E. discriminate E.
Qed.

Lemma process_line_in_fence (st : loop_state) (line : str) :
  in_fence (process_line st line) = xorb (is_fence line) (in_fence st).
Proof.
  unfold process_line. destruct (is_fence line); [reflexivity|].
  destruct (in_fence st) eqn:E; [simpl; rewrite ?E; reflexivity|].
  destruct (is_table_row line); [|simpl; rewrite ?E; reflexivity].
  rewrite normalize_table_line_eq. simpl. rewrite ?E. reflexivity.
Qed.

Lemma process_line_out (st : loop_state) (line : str) :
  exists emitted,
    out_lines (process_line st line) = out_lines st ++ [emitted] /\
    (is_fence line = true \/ in_fence st = true -> emitted = line).
Proof.
  unfold process_line. destruct (is_fence line).
  { exists line. split; [reflexivity|auto]. }
  destruct (in_fence st).
  { exists line. split; [reflexivity|auto]. }
  destruct (is_table_row line).
  - rewrite normalize_table_line_eq. cbn [bind try out_lines].
    eexists. split; [reflexivity|]. intros [H|H]; discriminate H.
  - exists line. split; [reflexivity|]. intros [H|H]; discriminate H.
Qed.

Lemma fold_process_in_fence (lines : list str) (st : loop_state) :
  in_fence (fold_left process_line lines st)
  = xorb (Nat.odd (fences_before lines)) (in_fence st).
Proof.
  revert st; induction lines as [|l lines IH]; intros st.
  - simpl. destruct (in_fence st); reflexivity.
  - simpl fold_left. rewrite IH, process_line_in_fence.
    unfold fences_before. simpl. destruct (is_fence l); simpl length.
    + rewrite Nat.odd_succ, <- Nat.negb_odd.
      destruct (Nat.odd _), (in_fence st); reflexivity.
    + reflexivity.
Qed.

Lemma fold_process_out (lines : list str) (st : loop_state) :
  exists emitted,
    out_lines (fold_left process_line lines st) = out_lines st ++ emitted /\
    length emitted = length lines.
Proof.
  revert st; induction lines as [|l lines IH]; intros st.
  - exists []. simpl. rewrite app_nil_r. auto.
  - simpl fold_left. destruct (IH (process_line st l)) as (em & -> & Hlen).
    destruct (process_line_out st l) as (e & -> & _).
    exists (e :: em). rewrite <- app_assoc. simpl. auto.
Qed.

(** The loop over [pre ++ line :: post] emits, at the place of [line], what
    one step emits for [line] in the state reached after [pre]. *)
Lemma fold_process_at (pre post : list str) (line : str) :
  exists emitted,
    out_lines (process_lines (pre ++ line :: post)) !! length pre = Some emitted /\
    out_lines (process_line (process_lines pre) line)
    = out_lines (process_lines pre) ++ [emitted] /\
    length (out_lines (process_lines pre)) = length pre.
Proof.
  unfold process_lines. rewrite fold_left_app. simpl fold_left.
  set (st := fold_left process_line pre loop_init).
  destruct (fold_process_out pre loop_init) as (em0 & E0 & L0).
  fold st in E0. simpl in E0.
  destruct (process_line_out st line) as (e & E1 & _).
  destruct (fold_process_out post (process_line st line)) as (em & E2 & _).
  exists e. rewrite E2, E1, E0. split; [|split; [reflexivity|exact L0]].
  rewrite <- app_assoc. rewrite lookup_app_r by lia.
  rewrite L0, Nat.sub_diag. reflexivity.
Qed.

(** C3. The fence state changes exactly on the lines whose stripped form
    starts with three backticks, so it is the parity of the number of fence
    markers read; a line read while the state is true, that is after an odd
    number of fence markers, is emitted as it is, whatever its shape; and a
    fence marker is emitted as it is too. *)
Theorem fence_opacity :
  (forall (st : loop_state) (line : str),
     in_fence (process_line st line)
     = if Py.startswith (Py.strip line) (lit "```") then negb (in_fence st)
       else in_fence st) /\
  (forall pre : list str,
     in_fence (process_lines pre) = Nat.odd (fences_before pre)) /\
  (forall (text : str) (pre post : list str) (line : str),
     Py.splitlines text = pre ++ line :: post ->
     Nat.odd (fences_before pre) = true ->
     out_lines (process_lines (Py.splitlines text)) !! length pre = Some line).
Proof.
  split; [|split].
  - intros st line. rewrite process_line_in_fence, is_fence_strip.
    destruct (Py.startswith _ _), (in_fence st); reflexivity.
  - intros pre. unfold process_lines. rewrite fold_process_in_fence.
    simpl. apply xorb_false_r.
  - intros text pre post line -> Hodd.
    destruct (fold_process_at pre post line) as (e & He & Hstep & _).
    rewrite He. f_equal.
    destruct (process_line_out (process_lines pre) line) as (e' & Hstep' & Hsame).
    rewrite Hstep in Hstep'. apply app_inv_head in Hstep'. injection Hstep' as ->.
    apply Hsame. right. unfold process_lines. rewrite fold_process_in_fence.
    rewrite Hodd. reflexivity.
Qed.

Lemma fence_opacity_witness :
  out_lines (process_lines
               (Py.splitlines (lit "```" ++ [LF] ++ lit "|a|b|" ++ [LF] ++ lit "```" ++ [LF])))
    !! 1%nat
  = Some (lit "|a|b|" ++ [LF]).
Proof.
  apply (proj2 (proj2 fence_opacity)
           (lit "```" ++ [LF] ++ lit "|a|b|" ++ [LF] ++ lit "```" ++ [LF])
           [lit "```" ++ [LF]] [lit "```" ++ [LF]] (lit "|a|b|" ++ [LF]));
    reflexivity.
Defined.

End Fences.

(** ** Line endings other than the newline *)
Section LineEndings.

(** C7. A table row that ends in a line boundary other than a newline loses
    it: [str.splitlines] ends the first line of [form_feed_text] at the form
    feed, the line is a table row, and its rewritten form has no line ending
    at all. A carriage return before the newline is lost as well, and several
    newlines become one. *)
Theorem line_terminator_dropped :
  Py.splitlines form_feed_text = [lit "|a|" ++ [FF]; lit "|b|" ++ [LF]] /\
  is_table_row (lit "|a|" ++ [FF]) = true /\
  normalize_table_line (lit "|a|" ++ [FF]) = Ret (lit "| a |") /\
  normalize_table_line (lit "|a|" ++ [CR; LF]) = Ret (lit "| a |" ++ [LF]) /\
  normalize_table_line (lit "|a|" ++ [LF; LF]) = Ret (lit "| a |" ++ [LF]).
Proof. repeat split; reflexivity. Qed.

(** C2. Running the normalizer twice is not the same as running it once on
    [form_feed_text]: the first run drops the form feed that ends the first
    row and so joins the two rows into one line, which the second run reads
    as a row of three cells and rewrites once more. *)
Theorem normalization_not_idempotent :
  normalized_text form_feed_text = lit "| a || b |" ++ [LF] /\
  normalized_text (normalized_text form_feed_text) = lit "| a | | b |" ++ [LF] /\
  normalized_text (normalized_text form_feed_text) <> normalized_text form_feed_text /\
  process_file (one_file_world form_feed_text) (Pathlib.Path (lit "t.md"))
  = Ret (true, one_file_world (lit "| a || b |" ++ [LF])) /\
  process_file (one_file_world (lit "| a || b |" ++ [LF])) (Pathlib.Path (lit "t.md"))
  = Ret (true, one_file_world (lit "| a | | b |" ++ [LF])).
Proof.
  split; [reflexivity|]. split; [reflexivity|]. split; [discriminate|].
  split; vm_compute; reflexivity.
Qed.

End LineEndings.

(** ** The file selector *)
Section Selector.

Lemma insert_sorted_In (p q : path) (l : list path) :
  In q (insert_sorted p l) <-> q = p \/ In q l.
Proof.
  induction l as [|x l IH]; simpl.
  - intuition.
  - destruct (Pathlib.path_leb p x); simpl; [intuition|]. rewrite IH. intuition.
Qed.

Lemma sorted_In (q : path) (l : list path) : In q (sorted l) <-> In q l.
Proof.
  unfold sorted. induction l as [|x l IH]; simpl; [tauto|].
  rewrite insert_sorted_In, IH. intuition.
Qed.

Lemma remove_dups_In (q : path) (l : list path) : In q (remove_dups l) <-> In q l.
Proof. rewrite <- !list_elem_of_In. apply elem_of_remove_dups. Qed.

(** What the selector returns for a non-empty list of arguments. *)
Lemma gather_files_arguments (w : world) (args : list str) (q : path) :
  args <> [] ->
  In q (gather_files w args) <->
  exists a, In a args /\
    if Fs.is_file w (Pathlib.Path a) then q = Pathlib.Path a
    else In q (Fs.rglob_md w (Pathlib.Path a)).
Proof.
  intros Hne. destruct args as [|a0 args]; [congruence|].
  unfold gather_files. rewrite sorted_In, remove_dups_In, in_flat_map.
  split; intros (a & Ha & H); exists a; (split; [exact Ha|]).
  - destruct (Fs.is_file w (Pathlib.Path a)); [|exact H].
    destruct H as [H|[]]. symmetry; exact H.
  - destruct (Fs.is_file w (Pathlib.Path a)); [|exact H]. left. symmetry; exact H.
Qed.

Lemma contains_here (needle rest : str) :
  Py.contains needle (needle ++ rest) = true.
Proof.
  destruct (needle ++ rest) eqn:E; simpl; rewrite <- E, startswith_app; reflexivity.
Qed.

Lemma contains_later (needle before hay : str) :
  Py.contains needle hay = true -> Py.contains needle (before ++ hay) = true.
Proof.
  intros H. induction before as [|c before IH]; [exact H|].
  simpl. rewrite IH. apply orb_true_r.
Qed.

Lemma contains_join (needle sep : str) (l : list str) :
  In needle l -> Py.contains needle (Py.join sep l) = true.
Proof.
  induction l as [|x l IH]; [intros []|].
  intros [->|H].
  - destruct l; [rewrite <- (app_nil_r needle) at 2|]; apply contains_here.
  - destruct l as [|y l]; [destruct H|].
    change (Py.join sep (x :: y :: l)) with (x ++ sep ++ Py.join sep (y :: l)).
    rewrite app_assoc. apply contains_later. apply IH. exact H.
Qed.

(** A part of a path that is not its anchor occurs in its string. *)
Lemma contains_part (needle : str) (p : path) :
  Py.startswith needle (lit "/") = false ->
  In needle p -> Py.contains needle (Pathlib.to_str p) = true.
Proof.
  intros Hn Hin. destruct p as [|a rest]; [destruct Hin|].
  unfold Pathlib.to_str. destruct (Py.startswith a (lit "/")) eqn:Ea.
  - destruct Hin as [->|Hin]; [congruence|].
    apply contains_later. apply contains_join. exact Hin.
  - apply contains_join. exact Hin.
Qed.

(** C1, counterexample. With the directory [docs] as its argument the
    selector returns the markdown file of the vendored package below
    [docs/node_modules]. *)
Lemma vendor_files_selected_from_arguments :
  gather_files vendor_world [lit "docs"]
  = [Pathlib.Path (lit "docs/a.md"); Pathlib.Path (lit "docs/node_modules/pkg/README.md")] /\
  ~ (forall (w : world) (args : list str) (q : path),
       In q (gather_files w args) -> ~ In (lit "node_modules") q).
Proof.
  split; [vm_compute; reflexivity|].
  intros H.
  apply (H vendor_world [lit "docs"] (Pathlib.Path (lit "docs/node_modules/pkg/README.md"))).
  - vm_compute. right; left; reflexivity.
  - vm_compute. right; left; reflexivity.
Qed.

(** C1, as the code has it. Called with no argument, the selector returns no
    path whose string contains [node_modules], hence none with a part
    [node_modules]. *)
Theorem default_selection_excludes_vendor (w : world) (q : path) :
  In q (gather_files w []) ->
  Py.contains (lit "node_modules") (Pathlib.to_str q) = false /\
  ~ In (lit "node_modules") q.
Proof.
  unfold gather_files. rewrite sorted_In, filter_In. intros [_ H].
  apply negb_true_iff in H. split; [exact H|].
  intros Hin. rewrite (contains_part (lit "node_modules") q eq_refl Hin) in H.
  discriminate H.
Qed.

Lemma default_selection_excludes_vendor_witness :
  gather_files vendor_world [] = [Pathlib.Path (lit "docs/a.md")] /\
  Py.contains (lit "node_modules") (Pathlib.to_str (Pathlib.Path (lit "docs/a.md"))) = false.
Proof.
  split; [vm_compute; reflexivity|].
  apply (default_selection_excludes_vendor vendor_world (Pathlib.Path (lit "docs/a.md"))).
  vm_compute. left; reflexivity.
Defined.

(** C10. With a non-empty list of arguments, an argument that names an
    existing file is selected as it is, whatever its extension, and the
    selection is made of exactly those arguments and of what the recursive
    [*.md] glob finds below the arguments that are not existing files. *)
Theorem explicit_arguments_selected (w : world) (args : list str) :
  args <> [] ->
  (forall a, In a args -> Fs.is_file w (Pathlib.Path a) = true ->
             In (Pathlib.Path a) (gather_files w args)) /\
  (forall q, In q (gather_files w args) <->
             (exists a, In a args /\ Fs.is_file w (Pathlib.Path a) = true /\
                        q = Pathlib.Path a) \/
             (exists a, In a args /\ Fs.is_file w (Pathlib.Path a) = false /\
                        In q (Fs.rglob_md w (Pathlib.Path a)))).
Proof.
  intros Hne. split.
  - intros a Ha Hfile. apply gather_files_arguments; [exact Hne|].
    exists a. split; [exact Ha|]. rewrite Hfile. reflexivity.
  - intros q. rewrite (gather_files_arguments w args q Hne). split.
    + intros (a & Ha & H). destruct (Fs.is_file w (Pathlib.Path a)) eqn:E.
      * left. exists a. auto.
      * right. exists a. auto.
    + intros [(a & Ha & E & H)|(a & Ha & E & H)]; exists a; rewrite E; auto.
Qed.

Lemma explicit_arguments_selected_witness :
  In (Pathlib.Path (lit "notes.txt"))
     (gather_files vendor_world [lit "notes.txt"; lit "docs"]).
Proof.
  apply (proj1 (explicit_arguments_selected vendor_world [lit "notes.txt"; lit "docs"]
                  ltac:(discriminate)) (lit "notes.txt")).
  - left; reflexivity.
  - vm_compute. reflexivity.
Defined.

End Selector.

(** ** The driver *)
Section Driver.

Lemma all_processed_app (pre post : list path) (w w' : world) :
  all_processed w pre = Some w' ->
  all_processed w (pre ++ post) = all_processed w' post.
Proof.
  revert w; induction pre as [|f pre IH]; intros w; simpl.
  - intros [= ->]. reflexivity.
  - destruct (process_file w f) as [[c w1]|e]; [apply IH|discriminate].
Qed.

(** The loop of [main]: it ends with status 0 when every target is processed,
    and with status 2 at the first target whose processing raises. *)
Lemma main_loop_outcome (targets : list path) :
  forall (w : world) (any_changed : bool) (log : list message) (seen : list path),
    let o := main_loop w any_changed log seen targets in
    match all_processed w targets with
    | Some w' => status o = 0%Z /\ final o = w' /\ processed o = seen ++ targets
    | None =>
        status o = 2%Z /\
        exists pre f post e w',
          targets = pre ++ f :: post /\
          all_processed w pre = Some w' /\
          process_file w' f = Raise e /\
          final o = w' /\
          processed o = seen ++ pre ++ [f] /\
          exists log', printed o = log' ++ [ErrorProcessing f e]
    end.
Proof.
  induction targets as [|f rest IH]; intros w any_changed log seen; simpl.
  - rewrite app_nil_r. auto.
  - destruct (process_file w f) as [[c w1]|e] eqn:E.
    + assert (Hstep : forall any' log',
                let o := main_loop w1 any' log' (seen ++ [f]) rest in
                match all_processed w1 rest with
                | Some w' => status o = 0%Z /\ final o = w' /\ processed o = seen ++ f :: rest
                | None =>
                    status o = 2%Z /\
                    exists pre f0 post e w',
                      f :: rest = pre ++ f0 :: post /\
                      all_processed w pre = Some w' /\
                      process_file w' f0 = Raise e /\
                      final o = w' /\
                      processed o = seen ++ pre ++ [f0] /\
                      exists log'', printed o = log'' ++ [ErrorProcessing f0 e]
                end).
      { intros any' log'. specialize (IH w1 any' log' (seen ++ [f])). simpl in IH.
        destruct (all_processed w1 rest) as [w'|].
        - destruct IH as (H1 & H2 & H3). rewrite <- app_assoc in H3. auto.
        - destruct IH as (H1 & pre & f0 & post & e & w' & Ht & Hp & Hr & Hf & Hs & Hl).
          split; [exact H1|]. exists (f :: pre), f0, post, e, w'.
          split; [simpl; rewrite Ht; reflexivity|].
          split; [simpl; rewrite E; exact Hp|].
          split; [exact Hr|]. split; [exact Hf|].
          split; [rewrite Hs, <- app_assoc; reflexivity|exact Hl]. }
      destruct c; apply Hstep.
    + split; [reflexivity|]. exists [], f, rest, e, w. simpl.
      repeat split; try reflexivity; try assumption. exists log. reflexivity.
Qed.

(** C8. [main] returns 1 exactly when the selection is empty; 0 exactly when
    it is not and every selected file is processed without an exception,
    whether or not a file changed; 2 exactly when processing some file raises
    after the files before it were processed, and then that file is the last
    one handed to [process_file] and the file system is as those before it
    left it. *)
Theorem exit_status (w : world) (argv : list str) :
  let targets := gather_files w (tl argv) in
  let o := main w argv in
  (status o = 1%Z <-> targets = []) /\
  (status o = 0%Z <-> targets <> [] /\ is_Some (all_processed w targets)) /\
  (status o = 2%Z <->
   exists pre f post e w',
     targets = pre ++ f :: post /\ all_processed w pre = Some w' /\
     process_file w' f = Raise e) /\
  (status o = 2%Z ->
   exists pre f post e w',
     targets = pre ++ f :: post /\ all_processed w pre = Some w' /\
     process_file w' f = Raise e /\
     processed o = pre ++ [f] /\ final o = w') /\
  (status o = 0%Z -> processed o = targets).
Proof.
  cbv zeta. unfold main.
  destruct (gather_files w (tl argv)) as [|t ts].
  - simpl. split; [split; reflexivity|].
    split; [split; [discriminate|intros [H _]; congruence]|].
    split; [split; [discriminate|]|split; discriminate].
    intros (pre & f & post & e & w' & H & _). destruct pre; discriminate H.
  - pose proof (main_loop_outcome (t :: ts) w false [] []) as H. cbv zeta in H.
    destruct (all_processed w (t :: ts)) as [w'|] eqn:Ea.
    + destruct H as (Hs & Hf & Hp). rewrite Hs.
      split; [split; discriminate|].
      split; [split; [intros _; split; [discriminate|eexists; reflexivity]|reflexivity]|].
      split; [split; [discriminate|]|split; [discriminate|intros _; exact Hp]].
      intros (pre & f & post & e & w1 & Ht & Hpre & Hr). exfalso.
      rewrite Ht, (all_processed_app pre (f :: post) w w1 Hpre) in Ea.
      simpl in Ea. rewrite Hr in Ea. discriminate Ea.
    + destruct H as (Hs & pre & f & post & e & w' & Ht & Hpre & Hr & Hf & Hp & _).
      rewrite Hs.
      split; [split; discriminate|].
      split; [split; [discriminate|intros [_ [x Hx]]; discriminate Hx]|].
      split; [split; [|reflexivity]|split; [|discriminate]].
      * intros _. exists pre, f, post, e, w'. auto.
      * intros _. exists pre, f, post, e, w'. auto.
Qed.

Lemma exit_status_witness :
  status (main broken_world [lit "fix_md_tables.py"]) = 2%Z /\
  exists pre f post e w',
    gather_files broken_world [] = pre ++ f :: post /\
    all_processed broken_world pre = Some w' /\
    process_file w' f = Raise e /\
    processed (main broken_world [lit "fix_md_tables.py"]) = pre ++ [f] /\
    final (main broken_world [lit "fix_md_tables.py"]) = w'.
Proof.
  split; [vm_compute; reflexivity|].
  apply (proj1 (proj2 (proj2 (proj2
           (exit_status broken_world [lit "fix_md_tables.py"]))))).
  vm_compute. reflexivity.
Defined.

End Driver.

(** ** Texts whose lines end in newlines *)
Section NewlineTexts.

Lemma splitlines_go_LF (cur rest : str) :
  Py.splitlines_go cur (LF :: rest) = rev (LF :: cur) :: Py.splitlines_go [] rest.
Proof. destruct rest; reflexivity. Qed.

Lemma splitlines_go_body (body cur s : str) :
  no_linebreak body ->
  Py.splitlines_go cur (body ++ s) = Py.splitlines_go (rev body ++ cur) s.
Proof.
  revert cur; induction body as [|c body IH]; intros cur Hb; [reflexivity|].
  simpl. rewrite (Hb c (or_introl eq_refl)).
  rewrite IH by (intros d Hd; apply Hb; right; exact Hd).
  rewrite <- app_assoc. reflexivity.
Qed.

Lemma lines_ok_cons (l : str) (rest : list str) :
  line_ok l -> lines_ok rest -> lines_ok (l :: rest).
Proof. intros Hl Hr. destruct rest; simpl; auto. Qed.

Lemma no_linebreak_rev (s : str) : no_linebreak s -> no_linebreak (rev s).
Proof. intros H c Hc. apply H. apply in_rev. exact Hc. Qed.

Lemma splitlines_go_ok (s cur : str) :
  newline_only s -> no_linebreak cur -> lines_ok (Py.splitlines_go cur s).
Proof.
  revert cur; induction s as [|c t IH]; intros cur Hs Hcur.
  - destruct cur as [|d cur]; simpl; [exact I|].
    right. split; [apply (no_linebreak_rev (d :: cur) Hcur)|].
    destruct (rev cur); discriminate.
  - assert (Ht : newline_only t) by (intros d Hd; apply Hs; right; exact Hd).
    destruct (Py.islinebreak c) eqn:E.
    + rewrite (Hs c (or_introl eq_refl) E), splitlines_go_LF.
      apply lines_ok_cons.
      * exists (rev cur). split; [apply no_linebreak_rev; exact Hcur|reflexivity].
      * apply IH; [exact Ht|intros d []].
    + simpl. rewrite E. apply IH; [exact Ht|].
      intros d [<-|Hd]; [exact E|exact (Hcur d Hd)].
Qed.

Lemma join_nil_concat (ls : list str) : Py.join [] ls = concat ls.
Proof.
  induction ls as [|l ls IH]; [reflexivity|].
  destruct ls as [|l' ls]; [simpl; rewrite app_nil_r; reflexivity|].
  change (Py.join [] (l :: l' :: ls)) with (l ++ Py.join [] (l' :: ls)).
  rewrite IH. reflexivity.
Qed.

Lemma splitlines_line (body rest : str) :
  no_linebreak body ->
  Py.splitlines_go [] ((body ++ [LF]) ++ rest)
  = (body ++ [LF]) :: Py.splitlines_go [] rest.
Proof.
  intros Hb. rewrite <- app_assoc, (splitlines_go_body body [] _ Hb).
  simpl app. rewrite splitlines_go_LF. simpl rev.
  rewrite app_nil_r, rev_involutive. reflexivity.
Qed.

(** Splitting the concatenation of well-formed lines gives the lines back. *)
Lemma splitlines_concat (ls : list str) :
  lines_ok ls -> Py.splitlines (concat ls) = ls.
Proof.
  unfold Py.splitlines. induction ls as [|l rest IH]; [reflexivity|].
  destruct rest as [|r rs].
  - intros [(body & Hb & ->)|[Hl Hne]]; simpl concat.
    + rewrite splitlines_line by exact Hb. reflexivity.
    + rewrite (splitlines_go_body l [] [] Hl). simpl. rewrite app_nil_r.
      destruct (rev l) eqn:E.
      * apply (f_equal (@rev _)) in E. rewrite rev_involutive in E. simpl in E. congruence.
      * rewrite <- E, rev_involutive. reflexivity.
  - intros [(body & Hb & ->) Hrest].
    change (concat ((body ++ [LF]) :: r :: rs)) with ((body ++ [LF]) ++ concat (r :: rs)).
    rewrite splitlines_line by exact Hb. rewrite (IH Hrest). reflexivity.
Qed.

Lemma split_go_chars (sep : str) (s : str) :
  forall (k : nat) (cur p : str) (c : char),
    In p (Py.split_go sep k cur s) -> In c p -> In c cur \/ In c s.
Proof.
  induction s as [|d t IH]; intros k cur p c Hp Hc; simpl in Hp.
  - destruct Hp as [<-|[]]. left. apply in_rev. exact Hc.
  - destruct k as [|k].
    + destruct (Py.startswith (d :: t) sep).
      * destruct Hp as [<-|Hp]; [left; apply in_rev; exact Hc|].
        destruct (IH _ _ _ _ Hp Hc) as [[]|H]. right; right; exact H.
      * destruct (IH _ _ _ _ Hp Hc) as [[<-|H]|H].
        -- right; left; reflexivity.
        -- left; exact H.
        -- right; right; exact H.
    + destruct (IH _ _ _ _ Hp Hc) as [H|H]; [left; exact H|right; right; exact H].
Qed.

Lemma join_chars (sep : str) (l : list str) (c : char) :
  In c (Py.join sep l) -> In c sep \/ exists x, In x l /\ In c x.
Proof.
  induction l as [|x l IH]; [intros []|].
  destruct l as [|y l].
  - simpl. intros H. right. exists x. auto.
  - change (Py.join sep (x :: y :: l)) with (x ++ sep ++ Py.join sep (y :: l)).
    rewrite !in_app_iff. intros [H|[H|H]].
    + right. exists x. split; [left; reflexivity|exact H].
    + left; exact H.
    + destruct (IH H) as [H'|(z & Hz & Hc)]; [left; exact H'|].
      right. exists z. split; [right; exact Hz|exact Hc].
Qed.

Lemma plain_char_no_linebreak (c : char) : plain_char c -> Py.islinebreak c = false.
Proof. intros [->|[->|[->| ->]]]; reflexivity. Qed.

Lemma normalized_cell_chars (b : bool) (p : str) (c : char) :
  In c (normalized_cell b p) -> plain_char c \/ In c p.
Proof.
  unfold plain_char. destruct (blank_dec p) as [Hb|Hb].
  - rewrite (normalized_cell_blank b p Hb). intros [<-|[]]. auto.
  - destruct b.
    + rewrite (normalized_cell_marker p Hb). unfold marker.
      destruct (Py.startswith _ _), (Py.endswith _ _); simpl;
        intros H; left; repeat (destruct H as [<-|H]; [auto|]); destruct H.
    + rewrite (normalized_cell_content p Hb). rewrite !in_app_iff.
      intros [[<-|[]]|[H|[<-|[]]]]; auto. right. exact (strip_In p c H).
Qed.

(** The characters of a rebuilt line come from the line, apart from pipes,
    spaces, dashes and colons. *)
Lemma rebuilt_chars (b : bool) (line : str) (c : char) :
  In c (rebuilt (map (normalized_cell b) (cells line))) ->
  plain_char c \/ In c (Py.rstrip_chars [LF] line).
Proof.
  unfold rebuilt. rewrite !in_app_iff. intros [H|[H|H]].
  - destruct H as [<-|[]]. left; left; reflexivity.
  - apply join_chars in H. destruct H as [H|(x & Hx & Hc)].
    + destruct H as [<-|[]]. left; left; reflexivity.
    + apply in_map_iff in Hx. destruct Hx as (p & <- & Hp).
      apply normalized_cell_chars in Hc. destruct Hc as [Hc|Hc]; [left; exact Hc|].
      right. apply slice_In in Hp.
      destruct (split_go_chars _ _ _ _ _ _ Hp Hc) as [[]|H]. exact H.
  - destruct H as [<-|[]]. left; left; reflexivity.
Qed.

Lemma rebuilt_shape (line : str) :
  same_shape line
    (rebuilt (map (normalized_cell (is_separator (cells line))) (cells line))
     ++ (if Py.endswith line [LF] then [LF] else [])).
Proof.
  split.
  - intros (body & Hb & ->). rewrite endswith_snoc. change (LF =? LF) with true.
    eexists. split; [|reflexivity].
    intros c Hc. apply rebuilt_chars in Hc. destruct Hc as [Hc|Hc].
    + apply plain_char_no_linebreak. exact Hc.
    + apply Hb.
      change (Py.rstrip_chars [LF] (body ++ [LF]))
        with (rdrop (fun c => Py.mem c [LF]) (body ++ [LF])) in Hc.
      rewrite rdrop_snoc_drop in Hc by reflexivity. exact (rdrop_In _ _ _ Hc).
  - intros [Hl Hne].
    assert (E : Py.endswith line [LF] = false).
    { destruct (Py.endswith line [LF]) eqn:E; [|reflexivity].
      apply endswith_iff in E. destruct E as [k ->].
      assert (H : Py.islinebreak LF = false)
        by (apply Hl; apply in_app_iff; right; left; reflexivity).
      discriminate H. }
    rewrite E, app_nil_r. split; [|discriminate].
    intros c Hc. apply rebuilt_chars in Hc. destruct Hc as [Hc|Hc].
    + apply plain_char_no_linebreak. exact Hc.
    + apply Hl. exact (rdrop_In _ _ _ Hc).
Qed.

(** One step of the loop: the line it emits has the shape of the line read,
    is a fence marker exactly when that is one, and is emitted as it is when
    the loop reads it in a state with the same fence flag. *)
Lemma process_line_twice (st : loop_state) (l : str) :
  exists e,
    out_lines (process_line st l) = out_lines st ++ [e] /\
    same_shape l e /\
    is_fence e = is_fence l /\
    forall st2, in_fence st2 = in_fence st ->
                out_lines (process_line st2 e) = out_lines st2 ++ [e].
Proof.
  assert (Hsame : same_shape l l) by (split; auto).
  unfold process_line at 1. destruct (is_fence l) eqn:Ef.
  { exists l. split; [reflexivity|]. split; [exact Hsame|]. split; [exact Ef|].
    intros st2 _. unfold process_line. rewrite Ef. reflexivity. }
  destruct (in_fence st) eqn:Ei.
  { exists l. split; [reflexivity|]. split; [exact Hsame|]. split; [exact Ef|].
    intros st2 H2. unfold process_line. rewrite Ef, H2. reflexivity. }
  destruct (is_table_row l) eqn:Er.
  - pose proof (is_table_row_parts l Er) as Hparts.
    pose proof (normalize_table_line_rebuilt l Hparts) as Hout.
    pose proof (rebuilt_shape l) as Hshape.
    set (e := rebuilt _ ++ _) in Hout, Hshape.
    rewrite Hout. cbn [bind try out_lines].
    exists e. split; [reflexivity|]. split; [exact Hshape|].
    split; [reflexivity|].
    intros st2 H2. unfold process_line.
    change (is_fence e) with false. cbv iota. rewrite H2.
    destruct (is_table_row e); [|reflexivity].
    rewrite (normalize_table_line_idempotent l e Hout). reflexivity.
  - exists l. split; [reflexivity|]. split; [exact Hsame|]. split; [exact Ef|].
    intros st2 H2. unfold process_line. rewrite Ef, H2, Er. reflexivity.
Qed.

(** The loop, run on what it has emitted, emits the same lines again. *)
Lemma process_lines_twice (ls : list str) :
  forall st st2 : loop_state,
    in_fence st2 = in_fence st ->
    exists em,
      out_lines (fold_left process_line ls st) = out_lines st ++ em /\
      out_lines (fold_left process_line em st2) = out_lines st2 ++ em /\
      Forall2 same_shape ls em.
Proof.
  induction ls as [|l ls IH]; intros st st2 H2.
  - exists []. simpl. rewrite !app_nil_r. repeat split. constructor.
  - destruct (process_line_twice st l) as (e & He & Hshape & Hfence & Hagain).
    assert (H2' : in_fence (process_line st2 e) = in_fence (process_line st l)).
    { rewrite !process_line_in_fence, Hfence, H2. reflexivity. }
    destruct (IH (process_line st l) (process_line st2 e) H2') as (em & E1 & E2 & F).
    exists (e :: em). simpl fold_left. rewrite E1, E2, He, (Hagain st2 H2).
    rewrite <- !app_assoc. repeat split. constructor; assumption.
Qed.

Lemma lines_ok_same_shape (ls em : list str) :
  Forall2 same_shape ls em -> lines_ok ls -> lines_ok em.
Proof.
  induction 1 as [|l e ls em [H1 H2] F IH]; [auto|].
  destruct F as [|l' e' ls' em' Hs F'].
  - simpl. intros [H|H]; auto.
  - intros [Hl Hrest]. split; [auto|]. apply IH. exact Hrest.
Qed.

(** X19. On a text whose only line boundary is the newline, normalizing
    twice gives what normalizing once gives. *)
Theorem normalization_idempotent_on_newline_texts (text : str) :
  newline_only text ->
  normalized_text (normalized_text text) = normalized_text text.
Proof.
  intros Htext. unfold normalized_text. rewrite !join_nil_concat.
  assert (Hls : lines_ok (Py.splitlines text))
    by (apply splitlines_go_ok; [exact Htext|intros c []]).
  destruct (process_lines_twice (Py.splitlines text) loop_init loop_init eq_refl)
    as (em & E1 & E2 & F).
  unfold process_lines. rewrite E1. simpl app.
  rewrite (splitlines_concat em (lines_ok_same_shape _ _ F Hls)).
  rewrite E2. reflexivity.
Qed.

Lemma normalization_idempotent_on_newline_texts_witness :
  normalized_text (normalized_text (lit "|a|b|" ++ [LF] ++ lit "|-|-|" ++ [LF]))
  = normalized_text (lit "|a|b|" ++ [LF] ++ lit "|-|-|" ++ [LF]).
Proof.
  apply normalization_idempotent_on_newline_texts.
  intros c Hc. vm_compute in Hc.
  repeat (destruct Hc as [<-|Hc]; [intros H; first [reflexivity|discriminate H]|]).
  destruct Hc.
Defined.

End NewlineTexts.

(** ** More on the classification and the rewrite of one line *)
Section LineFacts.

Lemma lstrip_head_pipe (line rest : str) :
  Py.strip line = PIPE :: rest -> exists k, Py.lstrip line = PIPE :: k.
Proof.
  unfold Py.strip. intros H.
  destruct (rdrop_prefix Py.isspace (Py.lstrip line)) as [k Hk].
  rewrite <- rstrip_rdrop, H in Hk. exists (rest ++ k). exact Hk.
Qed.

(** A line whose stripped form starts with a pipe is not a list item. *)
Lemma pipe_first_not_bullet (line : str) :
  Py.startswith (Py.strip line) (lit "|") = true -> Re.match_bullet line = false.
Proof.
  intros H. apply startswith_iff in H. destruct H as [rest H].
  destruct (lstrip_head_pipe line rest H) as [k Hk].
  unfold Re.match_bullet. unfold Py.lstrip in Hk. rewrite Hk.
  destruct k; reflexivity.
Qed.

Lemma is_table_row_iff (line : str) :
  is_table_row line = true <->
  Py.startswith (Py.strip line) (lit "|") = true /\
  Py.endswith (Py.strip line) (lit "|") = true /\
  (2 <= Py.count line PIPE)%nat.
Proof.
  unfold is_table_row. rewrite count_strip_pipe.
  destruct (Py.startswith (Py.strip line) (lit "|")) eqn:E1; simpl;
    [|split; [discriminate|intros [H _]; discriminate H]].
  rewrite (pipe_first_not_bullet line E1).
  destruct (Py.endswith (Py.strip line) (lit "|")); simpl;
    [|split; [discriminate|intros (_ & H & _); discriminate H]].
  destruct (Nat.ltb_spec (Py.count line PIPE) 2); split; try discriminate; auto.
  intros (_ & _ & H'). lia.
Qed.

(** X1. A line is a table row exactly when its stripped form starts and
    ends with a pipe and it has at least two pipes: the test on list items
    never rejects a line that passed the tests before it. So a line that
    matches the list-item pattern is not a table row, and the classification
    depends on the stripped line alone. *)
Theorem table_row_characterisation (line : str) :
  (is_table_row line = true <->
   Py.startswith (Py.strip line) (lit "|") = true /\
   Py.endswith (Py.strip line) (lit "|") = true /\
   (2 <= Py.count line PIPE)%nat) /\
  (Re.match_bullet line = true -> is_table_row line = false) /\
  is_table_row (Py.strip line) = is_table_row line.
Proof.
  split; [apply is_table_row_iff|]. split.
  - intros Hb. destruct (is_table_row line) eqn:E; [|reflexivity].
    apply is_table_row_iff in E. destruct E as (E & _).
    rewrite (pipe_first_not_bullet line E) in Hb. discriminate Hb.
  - destruct (is_table_row line) eqn:E.
    + apply is_table_row_iff. rewrite strip_idem, count_strip_pipe.
      apply is_table_row_iff. exact E.
    + destruct (is_table_row (Py.strip line)) eqn:E'; [|reflexivity].
      apply is_table_row_iff in E'. rewrite strip_idem, count_strip_pipe in E'.
      apply is_table_row_iff in E'. congruence.
Qed.

Lemma table_row_characterisation_witness :
  is_table_row (lit "- | not a table |") = false.
Proof.
  apply (proj1 (proj2 (table_row_characterisation (lit "- | not a table |")))).
  reflexivity.
Defined.

(** X2. Rewriting a line that [normalize_table_line] has returned gives the
    same line again, for every input line. *)
Theorem normalize_line_fixed_point (line : str) :
  exists out,
    normalize_table_line line = Ret out /\ normalize_table_line out = Ret out.
Proof.
  eexists. split; [apply normalize_table_line_eq|].
  apply (normalize_table_line_idempotent line). apply normalize_table_line_eq.
Qed.

Lemma strip_rebuilt (cs : list str) (ending : str) :
  ending = [] \/ ending = [LF] -> Py.strip (rebuilt cs ++ ending) = rebuilt cs.
Proof.
  intros Hend.
  assert (ER : rebuilt cs = ([PIPE] ++ Py.join [PIPE] cs) ++ [PIPE])
    by (unfold rebuilt; rewrite <- app_assoc; reflexivity).
  assert (E : Py.rstrip (rebuilt cs) = rebuilt cs)
    by (rewrite ER; apply (rdrop_snoc_stop Py.isspace); reflexivity).
  unfold Py.strip.
  assert (L : Py.lstrip (rebuilt cs ++ ending) = rebuilt cs ++ ending) by reflexivity.
  rewrite L. destruct Hend as [-> | ->].
  - rewrite app_nil_r. exact E.
  - rewrite <- E at 2. apply (rdrop_snoc_drop Py.isspace). reflexivity.
Qed.

Lemma count_rebuilt (cs : list str) (ending : str) :
  (2 <= Py.count (rebuilt cs ++ ending) PIPE)%nat.
Proof.
  unfold rebuilt. rewrite !count_app.
  change (Py.count (lit "|") PIPE) with 1%nat. lia.
Qed.

(** X3. The rewritten form of a table row is a table row again, starts with
    a pipe and is never a fence marker. *)
Theorem rewritten_row_is_table_row (line : str) :
  is_table_row line = true ->
  exists out,
    normalize_table_line line = Ret out /\
    is_table_row out = true /\
    is_fence out = false /\
    Py.startswith out (lit "|") = true.
Proof.
  intros Hrow. pose proof (is_table_row_parts line Hrow) as Hparts.
  eexists. split; [apply (normalize_table_line_rebuilt line Hparts)|].
  split; [|split; reflexivity].
  apply is_table_row_iff. rewrite strip_rebuilt by apply ending_cases.
  split; [reflexivity|]. split; [|apply count_rebuilt].
  unfold rebuilt. rewrite !app_assoc. apply endswith_snoc.
Qed.

Lemma rewritten_row_is_table_row_witness :
  exists out,
    normalize_table_line (lit "  |a|b|  ") = Ret out /\ is_table_row out = true.
Proof.
  destruct (rewritten_row_is_table_row (lit "  |a|b|  ") eq_refl)
    as (out & H1 & H2 & _).
  exists out. split; assumption.
Defined.

(** X4. On a table row that is not a separator row the stripped content of
    every cell is the same before and after the rewrite. *)
Theorem cell_content_kept (line : str) :
  is_table_row line = true -> is_separator (cells line) = false ->
  exists out,
    normalize_table_line line = Ret out /\
    map Py.strip (cells out) = map Py.strip (cells line).
Proof.
  intros Hrow Hsep.
  destruct (normalize_table_line_cells line (is_table_row_parts line Hrow))
    as (out & Hout & _ & Hcells).
  exists out. split; [exact Hout|]. rewrite Hcells, Hsep, map_map.
  apply map_ext. intros p. apply strip_normalized_content.
Qed.

Lemma cell_content_kept_witness :
  exists out,
    normalize_table_line (lit "|  a b|c  | |") = Ret out /\
    map Py.strip (cells out) = [lit "a b"; lit "c"; lit ""].
Proof.
  destruct (cell_content_kept (lit "|  a b|c  | |") eq_refl eq_refl) as (out & H1 & H2).
  exists out. split; [exact H1|]. rewrite H2. reflexivity.
Defined.

(** X5. The final newline survives the rewrite, and only it: the output ends
    with a newline exactly when the line does, and the output of a table row
    is its rebuilt cells, closed by a pipe, followed by that one newline or by
    nothing. *)
Theorem final_newline_kept (line : str) :
  exists out,
    normalize_table_line line = Ret out /\
    Py.endswith out [LF] = Py.endswith line [LF] /\
    (is_table_row line = true ->
     out = Py.rstrip_chars [LF] out ++ (if Py.endswith line [LF] then [LF] else []) /\
     Py.endswith (Py.rstrip_chars [LF] out) (lit "|") = true).
Proof.
  eexists. split; [apply normalize_table_line_eq|].
  split; [apply (normalize_keeps_final_newline line); apply normalize_table_line_eq|].
  intros Hrow. pose proof (is_table_row_parts line Hrow) as Hparts.
  destruct (Nat.ltb_spec (length (parts_of line)) 3); [lia|].
  rewrite rstrip_LF_rebuilt by apply ending_cases. split; [reflexivity|].
  unfold rebuilt. rewrite !app_assoc. apply endswith_snoc.
Qed.

Lemma final_newline_kept_witness :
  exists out,
    normalize_table_line (lit "|a|" ++ [LF]) = Ret out /\
    out = Py.rstrip_chars [LF] out ++ [LF].
Proof.
  destruct (final_newline_kept (lit "|a|" ++ [LF])) as (out & H1 & _ & H3).
  exists out. split; [exact H1|]. exact (proj1 (H3 eq_refl)).
Defined.

End LineFacts.

(** ** What the rewrite of a table row discards *)
Section Discarded.

Lemma drop_while_split (f : char -> bool) (s : str) :
  exists ws, s = ws ++ Py.drop_while f s /\ forallb f ws = true.
Proof.
  induction s as [|c s (ws & E & H)]; [exists []; auto|].
  simpl. destruct (f c) eqn:Ec.
  - exists (c :: ws). simpl. rewrite Ec, H. split; [f_equal; exact E|reflexivity].
  - exists []. auto.
Qed.

Lemma rdrop_split (f : char -> bool) (s : str) :
  exists ws, s = rdrop f s ++ ws /\ forallb f ws = true.
Proof.
  unfold rdrop. destruct (drop_while_split f (rev s)) as (ws & E & H).
  exists (rev ws). split.
  - rewrite <- rev_app_distr, <- E, rev_involutive. reflexivity.
  - rewrite forallb_forall in *. intros c Hc. apply H. apply in_rev. exact Hc.
Qed.

Lemma rdrop_app_keep (f : char -> bool) (a b : str) (c : char) :
  f c = false -> rdrop f ((a ++ [c]) ++ b) = (a ++ [c]) ++ rdrop f b.
Proof.
  intros Hc. unfold rdrop. rewrite rev_app_distr, drop_while_app.
  destruct (Py.drop_while f (rev b)) as [|d r] eqn:E.
  - rewrite rev_app_distr. simpl. rewrite Hc. simpl.
    rewrite rev_involutive, app_nil_r. reflexivity.
  - rewrite rev_app_distr, rev_involutive. reflexivity.
Qed.

Lemma spaces_blank (ws : str) : forallb Py.isspace ws = true -> blank ws.
Proof.
  intros H. unfold blank, Py.strip, Py.lstrip. rewrite (drop_while_all _ _ H).
  reflexivity.
Qed.

Lemma spaces_free (ws : str) : forallb Py.isspace ws = true -> ~ In PIPE ws.
Proof.
  intros H Hin. rewrite forallb_forall in H. specialize (H PIPE Hin). discriminate H.
Qed.

Lemma split_go_nonempty (sep : str) (k : nat) (cur s : str) :
  Py.split_go sep k cur s <> [].
Proof.
  revert k cur; induction s as [|d t IH]; intros k cur; simpl; [discriminate|].
  destruct k; [|apply IH]. destruct (Py.startswith (d :: t) sep); [discriminate|apply IH].
Qed.

Lemma last_cons_nonempty {A : Type} (x d : A) (l : list A) :
  l <> [] -> List.last (x :: l) d = List.last l d.
Proof. destruct l; [congruence|reflexivity]. Qed.

(** The last part of a split is what follows the last separator. *)
Lemma split_go_last (c : char) (a b cur : str) :
  ~ In c b -> List.last (Py.split_go [c] O cur (a ++ c :: b)) [] = b.
Proof.
  intros Hb. revert cur; induction a as [|d a IH]; intros cur.
  - rewrite (split_go_at_sep c [] cur b (fun H => H)).
    rewrite last_cons_nonempty by apply split_go_nonempty.
    rewrite (split_go_free c b [] Hb). reflexivity.
  - destruct (N.eqb_spec d c) as [->|Hd].
    + change ((c :: a) ++ c :: b) with ([] ++ c :: (a ++ c :: b)).
      rewrite (split_go_at_sep c [] cur _ (fun H => H)).
      rewrite last_cons_nonempty by apply split_go_nonempty. apply IH.
    + assert (E : Py.split_go [c] O cur ((d :: a) ++ c :: b)
                  = Py.split_go [c] O (d :: cur) (a ++ c :: b)).
      { simpl. destruct (N.eqb_spec d c); [congruence|reflexivity]. }
      rewrite E. apply IH.
Qed.

Lemma parts_ends {A : Type} (l : list A) (d : A) :
  (2 <= length l)%nat ->
  l = List.hd d l :: Py.slice_1_m1 l ++ [List.last l d].
Proof.
  destruct l as [|x l]; [simpl; lia|]. intros H.
  assert (Hl : l <> []) by (destruct l; simpl in H; [lia|discriminate]).
  rewrite last_cons_nonempty by exact Hl.
  unfold Py.slice_1_m1. cbn [List.hd tl]. f_equal.
  apply app_removelast_last. exact Hl.
Qed.

(** X6. Of a table row the rewrite discards white space only: the parts of
    the line are a blank part before the first pipe, the cells, and a blank
    part after the last pipe. *)
Theorem only_white_space_discarded (line : str) :
  is_table_row line = true ->
  exists first last,
    parts_of line = first :: cells line ++ [last] /\ blank first /\ blank last.
Proof.
  intros Hrow. pose proof (is_table_row_parts line Hrow) as Hparts.
  apply is_table_row_iff in Hrow. destruct Hrow as (Hs & He & _).
  apply startswith_iff in Hs. destruct Hs as [rest Hs].
  apply endswith_iff in He. destruct He as [k He].
  change (lit "|" ++ rest) with (PIPE :: rest) in Hs. change (lit "|") with [PIPE] in He.
  destruct (drop_while_split Py.isspace line) as (w1 & E1 & H1).
  change (Py.drop_while Py.isspace line) with (Py.lstrip line) in E1.
  destruct (rdrop_split Py.isspace (Py.lstrip line)) as (w2 & E2 & H2).
  change (rdrop Py.isspace (Py.lstrip line)) with (Py.strip line) in E2.
  assert (Hk : k ++ [PIPE] = PIPE :: rest) by congruence.
  rewrite He in E2. rewrite E2 in E1. clear E2 Hs He.
  set (g := fun c => Py.mem c [LF]).
  assert (Hw2 : forallb Py.isspace (rdrop g w2) = true).
  { rewrite forallb_forall in *. intros c Hc. apply H2. exact (rdrop_In _ _ _ Hc). }
  assert (Es : Py.rstrip_chars [LF] line = (w1 ++ k) ++ PIPE :: rdrop g w2).
  { change (Py.rstrip_chars [LF] line) with (rdrop g line). rewrite E1.
    replace (w1 ++ (k ++ [PIPE]) ++ w2) with (((w1 ++ k) ++ [PIPE]) ++ w2)
      by (rewrite <- !app_assoc; reflexivity).
    rewrite rdrop_app_keep by reflexivity. rewrite <- !app_assoc. reflexivity. }
  assert (Es' : Py.rstrip_chars [LF] line = w1 ++ PIPE :: rest ++ rdrop g w2).
  { rewrite Es. rewrite <- app_assoc. f_equal.
    change (k ++ PIPE :: rdrop g w2) with (k ++ [PIPE] ++ rdrop g w2).
    rewrite app_assoc, Hk. reflexivity. }
  exists (List.hd [] (parts_of line)), (List.last (parts_of line) []).
  split; [apply parts_ends; lia|]. unfold parts_of. change (lit "|") with [PIPE]. split.
  - rewrite Es', (split_go_at_sep PIPE w1 [] _ (spaces_free w1 H1)). simpl.
    apply spaces_blank. exact H1.
  - rewrite Es, (split_go_last PIPE _ _ [] (spaces_free _ Hw2)).
    apply spaces_blank. exact Hw2.
Qed.

Lemma only_white_space_discarded_witness :
  exists first last,
    parts_of (lit "  |a|b| " ++ [LF]) = first :: cells (lit "  |a|b| " ++ [LF]) ++ [last] /\
    blank first /\ blank last.
Proof. apply (only_white_space_discarded (lit "  |a|b| " ++ [LF])). reflexivity. Defined.

End Discarded.

(** ** More on the loop over the lines of a file *)
Section LoopFacts.

Lemma process_line_changed (st : loop_state) (l : str) :
  exists e,
    out_lines (process_line st l) = out_lines st ++ [e] /\
    (changed (process_line st l) = false <-> changed st = false /\ e = l) /\
    (is_table_row l = false -> e = l).
Proof.
  unfold process_line. destruct (is_fence l).
  { exists l. simpl. intuition. }
  destruct (in_fence st).
  { exists l. simpl. intuition. }
  destruct (is_table_row l).
  - rewrite normalize_table_line_eq. cbn [bind try out_lines changed].
    eexists. split; [reflexivity|]. split; [|discriminate].
    match goal with |- context [Py.str_eqb ?a l] =>
      destruct (Py.str_eqb a l) eqn:E end; cbn [negb].
    + apply str_eqb_eq in E. intuition.
    + split; [discriminate|]. intros [_ H]. apply str_eqb_eq in H. congruence.
  - exists l. simpl. intuition.
Qed.

Lemma fold_process_changed (ls : list str) :
  forall st : loop_state,
    exists em,
      out_lines (fold_left process_line ls st) = out_lines st ++ em /\
      length em = length ls /\
      (changed (fold_left process_line ls st) = false <-> changed st = false /\ em = ls).
Proof.
  induction ls as [|l ls IH]; intros st.
  - exists []. simpl. rewrite app_nil_r. intuition.
  - simpl fold_left.
    destruct (process_line_changed st l) as (e & He & Hc & _).
    destruct (IH (process_line st l)) as (em & E & Hlen & Hch).
    exists (e :: em). rewrite E, He, <- app_assoc. split; [reflexivity|].
    split; [simpl; rewrite Hlen; reflexivity|].
    rewrite Hch, Hc. split.
    + intros [[H1 ->] ->]. auto.
    + intros [H1 [= -> ->]]. auto.
Qed.

Lemma splitlines_go_cons (cur : str) (c : char) (t : str) :
  Py.splitlines_go cur (c :: t) =
  if Py.islinebreak c then
    match t with
    | d :: t' =>
        if (c =? CR) && (d =? LF)
        then rev (d :: c :: cur) :: Py.splitlines_go [] t'
        else rev (c :: cur) :: Py.splitlines_go [] t
    | [] => [rev (c :: cur)]
    end
  else Py.splitlines_go (c :: cur) t.
Proof. reflexivity. Qed.

Lemma splitlines_go_concat_bounded (n : nat) :
  forall s cur : str,
    (length s <= n)%nat -> concat (Py.splitlines_go cur s) = rev cur ++ s.
Proof.
  induction n as [|n IH]; intros s cur Hlen.
  - destruct s; [|simpl in Hlen; lia].
    destruct cur; simpl; rewrite ?app_nil_r; reflexivity.
  - destruct s as [|c t].
    + destruct cur; simpl; rewrite ?app_nil_r; reflexivity.
    + simpl in Hlen. rewrite splitlines_go_cons. destruct (Py.islinebreak c).
      * destruct t as [|d t'].
        -- simpl. rewrite app_nil_r. reflexivity.
        -- simpl in Hlen. destruct ((c =? CR) && (d =? LF)).
           ++ cbn [concat]. rewrite (IH t' []) by lia. simpl.
              rewrite <- !app_assoc. reflexivity.
           ++ cbn [concat]. rewrite (IH (d :: t') []) by (simpl; lia). simpl.
              rewrite <- !app_assoc. reflexivity.
      * rewrite (IH t (c :: cur)) by lia. simpl. rewrite <- app_assoc. reflexivity.
Qed.

(** Joining the lines of a text gives the text back. *)
Lemma join_splitlines (text : str) : Py.join [] (Py.splitlines text) = text.
Proof.
  rewrite join_nil_concat. unfold Py.splitlines.
  apply (splitlines_go_concat_bounded (length text)). lia.
Qed.

Lemma fold_process_at_step (pre post : list str) (line : str) :
  exists e,
    out_lines (process_lines (pre ++ line :: post)) !! length pre = Some e /\
    out_lines (process_line (process_lines pre) line)
    = out_lines (process_lines pre) ++ [e].
Proof.
  destruct (fold_process_at pre post line) as (e & H1 & H2 & _). eauto.
Qed.

(** X7. The loop emits one line for each line it reads, and a line that is
    not a table row is emitted as it is, wherever it stands. *)
Theorem other_lines_untouched :
  (forall ls : list str, length (out_lines (process_lines ls)) = length ls) /\
  (forall (pre post : list str) (line : str),
     is_table_row line = false ->
     out_lines (process_lines (pre ++ line :: post)) !! length pre = Some line).
Proof.
  split.
  - intros ls. destruct (fold_process_out ls loop_init) as (em & E & Hlen).
    unfold process_lines. rewrite E. simpl. exact Hlen.
  - intros pre post line Hrow.
    destruct (fold_process_at_step pre post line) as (e & He & Hstep).
    destruct (process_line_changed (process_lines pre) line) as (e' & Hstep' & _ & Hsame).
    rewrite Hstep in Hstep'. apply app_inv_head in Hstep'.
    rewrite He. f_equal. injection Hstep' as ->. exact (Hsame Hrow).
Qed.

Lemma other_lines_untouched_witness :
  out_lines (process_lines [lit "|a|b|"; lit "# |title|"; lit "|c|"]) !! 1%nat
  = Some (lit "# |title|").
Proof.
  apply (proj2 other_lines_untouched [lit "|a|b|"] [lit "|c|"] (lit "# |title|")).
  reflexivity.
Defined.

Lemma changed_iff_lines_differ (ls : list str) :
  changed (process_lines ls) = false <-> out_lines (process_lines ls) = ls.
Proof.
  destruct (fold_process_changed ls loop_init) as (em & E & _ & Hch).
  unfold process_lines. rewrite E, Hch. simpl. intuition.
Qed.

(** X8. The loop reports a change exactly when some emitted line differs
    from the line read; when it reports none, the text it would write is the
    text it has read. *)
Theorem changed_flag_correct :
  (forall ls : list str,
     changed (process_lines ls) = false <-> out_lines (process_lines ls) = ls) /\
  (forall text : str,
     changed (process_lines (Py.splitlines text)) = false ->
     normalized_text text = text).
Proof.
  split; [exact changed_iff_lines_differ|].
  intros text Hc. unfold normalized_text.
  rewrite (proj1 (changed_iff_lines_differ _) Hc).
  apply join_splitlines.
Qed.

Lemma changed_flag_correct_witness :
  normalized_text (lit "| a | b |" ++ [LF] ++ lit "text") = lit "| a | b |" ++ [LF] ++ lit "text".
Proof.
  apply (proj2 changed_flag_correct (lit "| a | b |" ++ [LF] ++ lit "text")).
  reflexivity.
Defined.

End LoopFacts.

(** ** More on processing one file *)
Section FileFacts.

Lemma read_text_file (w : world) (p : path) (text : str) :
  Fs.read_text w p = Ret text ->
  exists f raw, w !! p = Some (File f) /\ contents f = Ret raw /\
                text = Fs.universal_newlines raw.
Proof.
  unfold Fs.read_text. destruct (w !! p) as [[|f]|]; try discriminate.
  destruct (contents f) as [raw|e] eqn:E; [|discriminate].
  intros H. apply Ret_inj in H. exists f, raw. auto.
Qed.

Lemma read_text_insert (w : world) (p : path) (s : str) (b : bool) :
  Fs.read_text (<[p := File {| contents := Ret s; writable := b |}]> w) p
  = Ret (Fs.universal_newlines s).
Proof. unfold Fs.read_text. rewrite lookup_insert_eq. reflexivity. Qed.

Lemma write_text_insert (w w' : world) (p : path) (s : str) :
  Fs.write_text w p s = Ret w' ->
  w' = <[p := File {| contents := Ret s; writable := true |}]> w.
Proof.
  unfold Fs.write_text. destruct (w !! p) as [[|f]|]; try discriminate.
  - destruct (writable f); [|discriminate]. intros H. apply Ret_inj in H. auto.
  - intros H. apply Ret_inj in H. auto.
Qed.

(** What a successful call of [process_file] has done. *)
Lemma process_file_ret (w w' : world) (p : path) (c : bool) :
  process_file w p = Ret (c, w') ->
  exists text,
    Fs.read_text w p = Ret text /\
    c = changed (process_lines (Py.splitlines text)) /\
    w' = if c then <[p := File {| contents := Ret (normalized_text text);
                                   writable := true |}]> w
         else w.
Proof.
  unfold process_file. destruct (Fs.read_text w p) as [text|e]; [|discriminate].
  cbn [bind]. exists text. split; [reflexivity|].
  destruct (changed (process_lines (Py.splitlines text))).
  - destruct (Fs.write_text w p _) as [w1|e] eqn:E; [|discriminate].
    cbn [bind] in H. apply Ret_inj in H. injection H as <- <-.
    split; [reflexivity|]. exact (write_text_insert _ _ _ _ E).
  - apply Ret_inj in H. injection H as <- <-. auto.
Qed.

Lemma process_file_other_paths (w w' : world) (p q : path) (c : bool) :
  process_file w p = Ret (c, w') -> q <> p -> w' !! q = w !! q.
Proof.
  intros H Hq. destruct (process_file_ret w w' p c H) as (text & _ & _ & Hw).
  rewrite Hw. destruct c; [|reflexivity]. apply lookup_insert_ne. congruence.
Qed.



Lemma fold_process_normal (ls : list str) :
  (forall l, In l ls -> is_table_row l = true -> normalize_table_line l = Ret l) ->
  forall st : loop_state,
    changed (fold_left process_line ls st) = changed st.
Proof.
  induction ls as [|l ls IH]; intros Hn st; [reflexivity|].
  simpl fold_left. rewrite IH by (intros l' Hl'; apply Hn; right; exact Hl').
  unfold process_line. destruct (is_fence l); [reflexivity|].
  destruct (in_fence st); [reflexivity|].
  destruct (is_table_row l) eqn:E; [|reflexivity].
  rewrite (Hn l (or_introl eq_refl) E). cbn [bind try changed].
  rewrite str_eqb_refl. reflexivity.
Qed.

(** X10. A file whose table rows are all in normal form already, or that has
    no table row, is not written: [process_file] returns false and leaves the
    file system as it is, whether or not the file can be written. *)
Theorem normal_file_not_written (w : world) (p : path) (text : str) :
  Fs.read_text w p = Ret text ->
  (forall l, In l (Py.splitlines text) -> is_table_row l = true ->
             normalize_table_line l = Ret l) ->
  process_file w p = Ret (false, w).
Proof.
  intros Hr Hn. unfold process_file. rewrite Hr. cbn [bind].
  unfold process_lines. rewrite (fold_process_normal _ Hn loop_init). reflexivity.
Qed.

Lemma normal_file_not_written_witness :
  process_file read_only_world (Pathlib.Path (lit "done.md")) = Ret (false, read_only_world).
Proof.
  apply (normal_file_not_written read_only_world (Pathlib.Path (lit "done.md"))
           (lit "| a | b |" ++ [LF] ++ lit "no table here")).
  - vm_compute. reflexivity.
  - intros l Hl. vm_compute in Hl.
    destruct Hl as [<-|[<-|[]]]; intros H; first [reflexivity|discriminate H].
Defined.

Lemma universal_newlines_id (s : str) :
  ~ In CR s -> Fs.universal_newlines s = s.
Proof.
  induction s as [|c s IH]; intros H; [reflexivity|].
  simpl. destruct (N.eqb_spec c CR) as [->|_]; [exfalso; apply H; left; reflexivity|].
  rewrite IH; [reflexivity|]. intros Hin. apply H. right. exact Hin.
Qed.

Lemma lines_ok_newline_only (ls : list str) :
  lines_ok ls -> newline_only (concat ls).
Proof.
  assert (Hline : forall l, line_ok l \/ last_ok l -> newline_only l).
  { intros l [(body & Hb & ->)|[Hl _]] c Hc Hlb.
    - apply in_app_iff in Hc. destruct Hc as [Hc|[<-|[]]]; [|reflexivity].
      rewrite (Hb c Hc) in Hlb. discriminate Hlb.
    - rewrite (Hl c Hc) in Hlb. discriminate Hlb. }
  induction ls as [|l rest IH]; [intros _ c []|].
  intros H c Hc. simpl in Hc. apply in_app_iff in Hc.
  destruct rest as [|r rs].
  - destruct Hc as [Hc|[]]. exact (Hline l H c Hc).
  - destruct H as [Hl Hrest]. destruct Hc as [Hc|Hc].
    + exact (Hline l (or_introl Hl) c Hc).
    + exact (IH Hrest c Hc).
Qed.

(** X11. Running [process_file] again on a file it has just processed writes
    nothing, when the only line boundary of the text read is the newline. *)
Theorem second_run_writes_nothing (w w' : world) (p : path) (text : str) (c : bool) :
  Fs.read_text w p = Ret text ->
  newline_only text ->
  process_file w p = Ret (c, w') ->
  process_file w' p = Ret (false, w').
Proof.
  intros Hr Hnl H.
  destruct (process_file_ret w w' p c H) as (text' & Hr' & Hc & Hw).
  rewrite Hr in Hr'. apply Ret_inj in Hr'. subst text'.
  destruct c; [|subst w'; exact H].
  assert (Hls : lines_ok (Py.splitlines text))
    by (apply splitlines_go_ok; [exact Hnl|intros d []]).
  destruct (process_lines_twice (Py.splitlines text) loop_init loop_init eq_refl)
    as (em & E1 & E2 & F).
  simpl in E1, E2.
  assert (Hem : lines_ok em) by exact (lines_ok_same_shape _ _ F Hls).
  assert (Ht : normalized_text text = concat em).
  { unfold normalized_text, process_lines. rewrite E1. apply join_nil_concat. }
  assert (Hread : Fs.read_text w' p = Ret (concat em)).
  { rewrite Hw, read_text_insert, Ht. f_equal. apply universal_newlines_id.
    intros Hin. pose proof (lines_ok_newline_only em Hem CR Hin eq_refl) as Hcr.
    discriminate Hcr. }
  unfold process_file. rewrite Hread. cbn [bind].
  rewrite (splitlines_concat em Hem).
  assert (Hch : changed (process_lines em) = false)
    by (apply changed_iff_lines_differ; exact E2).
  rewrite Hch. reflexivity.
Qed.

Lemma second_run_writes_nothing_witness :
  process_file (one_file_world (lit "| a | b |" ++ [LF])) (Pathlib.Path (lit "t.md"))
  = Ret (false, one_file_world (lit "| a | b |" ++ [LF])).
Proof.
  apply (second_run_writes_nothing (one_file_world (lit "|a|b|" ++ [LF])) _
           (Pathlib.Path (lit "t.md")) (lit "|a|b|" ++ [LF]) true).
  - vm_compute. reflexivity.
  - intros c Hc. vm_compute in Hc.
    repeat (destruct Hc as [<-|Hc]; [intros H; first [reflexivity|discriminate H]|]).
    destruct Hc.
  - vm_compute. reflexivity.
Defined.

End FileFacts.

(** ** More on the selector and the driver *)
Section RunFacts.

Lemma read_text_same (w w' : world) (q : path) :
  w' !! q = w !! q -> Fs.read_text w' q = Fs.read_text w q.
Proof. unfold Fs.read_text. intros ->. reflexivity. Qed.




Lemma main_loop_unreadable (q : path) (e : exn) (targets : list path) :
  forall (w : world) (any_changed : bool) (log : list message) (seen : list path),
    In q targets -> Fs.read_text w q = Raise e ->
    status (main_loop w any_changed log seen targets) = 2%Z.
Proof.
  induction targets as [|f rest IH]; intros w any_changed log seen Hq Hr; [destruct Hq|].
  simpl. destruct (decide (f = q)) as [->|Hne].
  - unfold process_file. rewrite Hr. reflexivity.
  - destruct Hq as [Hq|Hq]; [congruence|].
    destruct (process_file w f) as [[c w1]|e'] eqn:E; [|reflexivity].
    assert (Hr1 : Fs.read_text w1 q = Raise e).
    { rewrite <- Hr. apply read_text_same.
      apply (process_file_other_paths w w1 f q c E). congruence. }
    destruct c; apply IH; assumption.
Qed.

(** X13. The run ends with status 2 whenever a selected path cannot be read
    when the run starts, a directory whose name ends in [.md] for one:
    nothing that is processed before it makes it readable. *)
Theorem unreadable_target_aborts (w : world) (argv : list str) (q : path) (e : exn) :
  In q (gather_files w (tl argv)) ->
  Fs.read_text w q = Raise e ->
  status (main w argv) = 2%Z.
Proof.
  intros Hq Hr. unfold main.
  destruct (gather_files w (tl argv)) as [|t ts]; [destruct Hq|].
  apply (main_loop_unreadable q e); assumption.
Qed.

Lemma unreadable_target_aborts_witness :
  status (main edge_world [lit "fix_md_tables.py"]) = 2%Z.
Proof.
  apply (unreadable_target_aborts edge_world [lit "fix_md_tables.py"]
           (Pathlib.Path (lit "docs/x.md")) OSError).
  - vm_compute. right; left; reflexivity.
  - vm_compute. reflexivity.
Defined.

Lemma summary_snoc (u : list path) (f : path) : summary (u ++ [f]) = SomeFilesUpdated.
Proof. destruct u; reflexivity. Qed.




End RunFacts.

(** ** The order and the content of the selection *)
Section SelectionFacts.

Lemma str_eqb_sym (a b : str) : Py.str_eqb a b = Py.str_eqb b a.
Proof.
  destruct (Py.str_eqb a b) eqn:E.
  - apply str_eqb_eq in E. subst. symmetry. apply str_eqb_refl.
  - destruct (Py.str_eqb b a) eqn:E'; [|reflexivity].
    apply str_eqb_eq in E'. subst. rewrite str_eqb_refl in E. discriminate E.
Qed.

Lemma str_leb_total (a b : str) :
  Pathlib.str_leb a b = false -> Pathlib.str_leb b a = true.
Proof.
  revert b; induction a as [|x a IH]; intros [|y b]; simpl; try discriminate; auto.
  destruct (N.ltb_spec x y) as [Hlt|Hge]; [discriminate|]. simpl.
  destruct (N.eqb_spec x y) as [->|Hne]; simpl.
  - intros H. rewrite N.eqb_refl, (IH b H). apply orb_true_r.
  - intros _. destruct (N.ltb_spec y x) as [_|Hge']; [reflexivity|]. lia.
Qed.

Lemma path_leb_total (p q : path) :
  Pathlib.path_leb p q = false -> Pathlib.path_leb q p = true.
Proof.
  revert q; induction p as [|x p IH]; intros [|y q]; simpl; try discriminate; auto.
  rewrite (str_eqb_sym y x). destruct (Py.str_eqb x y); [apply IH|apply str_leb_total].
Qed.

Lemma insert_sorted_Sorted (p : path) (l : list path) :
  Sorted path_le l -> Sorted path_le (insert_sorted p l).
Proof.
  induction 1 as [|q l Hl IH Hhd]; simpl.
  - repeat constructor.
  - destruct (Pathlib.path_leb p q) eqn:E.
    + constructor; [constructor; assumption|]. constructor. exact E.
    + constructor; [exact IH|].
      destruct l as [|r l]; simpl.
      * constructor. apply path_leb_total. exact E.
      * destruct (Pathlib.path_leb p r).
        -- constructor. apply path_leb_total. exact E.
        -- constructor. inversion Hhd; assumption.
Qed.

Lemma sorted_Sorted (l : list path) : Sorted path_le (sorted l).
Proof.
  unfold sorted. induction l as [|p l IH]; simpl; [constructor|].
  apply insert_sorted_Sorted. exact IH.
Qed.

Lemma insert_sorted_NoDup (p : path) (l : list path) :
  ~ In p l -> List.NoDup l -> List.NoDup (insert_sorted p l).
Proof.
  intros Hp Hl. induction Hl as [|q l Hq Hl IH]; simpl.
  - constructor; [intros []|constructor].
  - destruct (Pathlib.path_leb p q).
    + constructor; [exact Hp|]. constructor; assumption.
    + constructor.
      * rewrite insert_sorted_In. intros [->|H]; [apply Hp; left; reflexivity|exact (Hq H)].
      * apply IH. intros H. apply Hp. right. exact H.
Qed.

Lemma sorted_NoDup (l : list path) : List.NoDup l -> List.NoDup (sorted l).
Proof.
  unfold sorted. induction 1 as [|p l Hp Hl IH]; simpl; [constructor|].
  apply insert_sorted_NoDup; [|exact IH]. fold (sorted l). rewrite sorted_In. exact Hp.
Qed.

Lemma rglob_md_NoDup (w : world) (p : path) : List.NoDup (Fs.rglob_md w p).
Proof.
  unfold Fs.rglob_md. apply List.NoDup_filter.
  apply NoDup_ListNoDup. exact (NoDup_fst_map_to_list w).
Qed.

Lemma str_leb_trans (a b c : str) :
  Pathlib.str_leb a b = true -> Pathlib.str_leb b c = true ->
  Pathlib.str_leb a c = true.
Proof.
  revert b c; induction a as [|x a IH]; intros [|y b] [|z c]; simpl;
    try discriminate; auto.
  rewrite !orb_true_iff, !andb_true_iff, !N.ltb_lt, !N.eqb_eq.
  intros [H1|[-> H1]] [H2|[-> H2]].
  - left. lia.
  - left. exact H1.
  - left. exact H2.
  - right. split; [reflexivity|]. exact (IH b c H1 H2).
Qed.

Lemma str_leb_antisym (a b : str) :
  Pathlib.str_leb a b = true -> Pathlib.str_leb b a = true -> a = b.
Proof.
  revert b; induction a as [|x a IH]; intros [|y b]; simpl; try discriminate; auto.
  rewrite !orb_true_iff, !andb_true_iff, !N.ltb_lt, !N.eqb_eq.
  intros [H1|[-> H1]] [H2|[E H2]]; try lia.
  f_equal. exact (IH b H1 H2).
Qed.

Lemma path_leb_trans (p q r : path) :
  path_le p q -> path_le q r -> path_le p r.
Proof.
  unfold path_le. revert q r; induction p as [|x p IH]; intros [|y q] [|z r]; simpl;
    try discriminate; auto.
  destruct (Py.str_eqb x y) eqn:Exy, (Py.str_eqb y z) eqn:Eyz.
  - apply str_eqb_eq in Exy, Eyz. subst. rewrite str_eqb_refl. apply IH.
  - apply str_eqb_eq in Exy. subst. rewrite Eyz. auto.
  - apply str_eqb_eq in Eyz. subst. rewrite Exy. auto.
  - intros H1 H2. destruct (Py.str_eqb x z) eqn:Exz.
    + apply str_eqb_eq in Exz. subst.
      rewrite (str_leb_antisym _ _ H1 H2), str_eqb_refl in Exy. discriminate Exy.
    + exact (str_leb_trans _ _ _ H1 H2).
Qed.

Lemma gather_files_sorted_nodup (w : world) (args : list str) :
  StronglySorted path_le (gather_files w args) /\ List.NoDup (gather_files w args).
Proof.
  assert (Hs : forall l, StronglySorted path_le (sorted l)).
  { intros l. apply Sorted_StronglySorted; [|apply sorted_Sorted].
    intros p q r. apply path_leb_trans. }
  unfold gather_files. destruct args as [|a args].
  - split; [apply Hs|].
    apply sorted_NoDup, List.NoDup_filter, rglob_md_NoDup.
  - split; [apply Hs|]. apply sorted_NoDup.
    apply NoDup_ListNoDup, NoDup_remove_dups.
Qed.

(** X15. The selection is in ascending order of paths, each path before all
    those that follow it, and holds no path twice, whatever the arguments. *)
Theorem selection_sorted (w : world) (args : list str) :
  StronglySorted path_le (gather_files w args) /\ List.NoDup (gather_files w args).
Proof.
  unfold gather_files. destruct args as [|a args]; split.
  - apply Sorted_StronglySorted; [|apply sorted_Sorted].
    intros p q r. apply path_leb_trans.
  - apply sorted_NoDup, List.NoDup_filter, rglob_md_NoDup.
  - apply Sorted_StronglySorted; [|apply sorted_Sorted].
    intros p q r. apply path_leb_trans.
  - apply sorted_NoDup. apply NoDup_ListNoDup, NoDup_remove_dups.
Qed.

Lemma contains_iff (needle hay : str) :
  Py.contains needle hay = true <-> exists a b, hay = a ++ needle ++ b.
Proof.
  split.
  - induction hay as [|c hay IH]; simpl; rewrite orb_true_iff.
    + intros [H|H]; [|discriminate]. apply startswith_iff in H. destruct H as [k H].
      exists [], k. exact H.
    + intros [H|H].
      * apply startswith_iff in H. destruct H as [k H]. exists [], k. exact H.
      * destruct (IH H) as (a & b & ->). exists (c :: a), b. reflexivity.
  - intros (a & b & ->). apply contains_later, contains_here.
Qed.

Lemma join_has (sep name : str) (l : list str) :
  In name l -> exists x y, Py.join sep l = x ++ name ++ y.
Proof.
  induction l as [|z l IH]; [intros []|].
  destruct l as [|z' l].
  - intros [->|[]]. exists [], []. simpl. rewrite app_nil_r. reflexivity.
  - change (Py.join sep (z :: z' :: l)) with (z ++ sep ++ Py.join sep (z' :: l)).
    intros [->|H].
    + exists [], (sep ++ Py.join sep (z' :: l)). reflexivity.
    + destruct (IH H) as (x & y & ->). exists (z ++ sep ++ x), y.
      rewrite <- !app_assoc. reflexivity.
Qed.

(** A string that occurs in a part of a path occurs in the string of the path. *)
Lemma contains_in_part (needle name : str) (q : path) :
  In name q -> Py.contains needle name = true ->
  Py.contains needle (Pathlib.to_str q) = true.
Proof.
  intros Hin Hc. apply contains_iff in Hc. destruct Hc as (a & b & ->).
  assert (H : exists x y, Pathlib.to_str q = x ++ (a ++ needle ++ b) ++ y).
  { destruct q as [|h rest]; [destruct Hin|]. unfold Pathlib.to_str.
    destruct (Py.startswith h (lit "/")).
    - destruct Hin as [->|Hin].
      + exists [], (Py.join (lit "/") rest). reflexivity.
      + destruct (join_has (lit "/") _ _ Hin) as (x & y & ->).
        exists (h ++ x), y. rewrite <- !app_assoc. reflexivity.
    - apply join_has. exact Hin. }
  destruct H as (x & y & ->). apply contains_iff.
  exists (x ++ a), (b ++ y). rewrite <- !app_assoc. reflexivity.
Qed.

Lemma rglob_md_In (w : world) (p q : path) :
  In q (Fs.rglob_md w p) <->
  is_Some (w !! q) /\ Fs.proper_prefix p q = true /\ Fs.matches_md q = true.
Proof.
  unfold Fs.rglob_md. rewrite filter_In, andb_true_iff, in_map_iff.
  split.
  - intros [((k & v) & <- & Hkv) H]. split; [|exact H].
    apply list_elem_of_In, elem_of_map_to_list in Hkv. exists v. exact Hkv.
  - intros [[v Hv] H]. split; [|exact H]. exists (q, v). split; [reflexivity|].
    apply list_elem_of_In, elem_of_map_to_list. exact Hv.
Qed.

(** X16. Called with no argument, the selector returns exactly the entries
    of the file system, files or directories, whose name ends in [.md] and
    whose path string does not contain [node_modules]; so an entry with a part
    that merely contains that string, a file [node_modules_notes.md] say, is
    left out as well. *)
Theorem default_selection_characterised (w : world) (q : path) :
  (In q (gather_files w []) <->
   is_Some (w !! q) /\ q <> [] /\ Fs.matches_md q = true /\
   Py.contains (lit "node_modules") (Pathlib.to_str q) = false) /\
  (forall name, In name q -> Py.contains (lit "node_modules") name = true ->
                ~ In q (gather_files w [])).
Proof.
  assert (H : In q (gather_files w []) <->
              is_Some (w !! q) /\ q <> [] /\ Fs.matches_md q = true /\
              Py.contains (lit "node_modules") (Pathlib.to_str q) = false).
  { unfold gather_files. rewrite sorted_In, filter_In, rglob_md_In, negb_true_iff.
    change (Pathlib.Path (lit ".")) with (@nil str).
    assert (Hp : Fs.proper_prefix [] q = true <-> q <> [])
      by (destruct q; simpl; split; congruence).
    rewrite Hp. tauto. }
  split; [exact H|].
  intros name Hin Hc Hq. apply H in Hq. destruct Hq as (_ & _ & _ & Hn).
  rewrite (contains_in_part _ _ _ Hin Hc) in Hn. discriminate Hn.
Qed.

Lemma default_selection_characterised_witness :
  ~ In (Pathlib.Path (lit "node_modules_notes.md")) (gather_files edge_world []).
Proof.
  apply (proj2 (default_selection_characterised edge_world
                  (Pathlib.Path (lit "node_modules_notes.md")))
           (lit "node_modules_notes.md")).
  - left; reflexivity.
  - reflexivity.
Defined.

End SelectionFacts.

(** ** Arguments in another order, and the kind of a rewritten row *)
Section Stability.

Lemma path_leb_antisym (p q : path) : path_le p q -> path_le q p -> p = q.
Proof.
  unfold path_le. revert q; induction p as [|x p IH]; intros [|y q]; simpl;
    try discriminate; auto.
  rewrite (str_eqb_sym y x). destruct (Py.str_eqb x y) eqn:E.
  - apply str_eqb_eq in E. subst. intros H1 H2. f_equal. exact (IH q H1 H2).
  - intros H1 H2. rewrite (str_leb_antisym _ _ H1 H2), str_eqb_refl in E. discriminate E.
Qed.

(** Two sorted lists without repetition and with the same members are equal. *)
Lemma sorted_unique (l1 l2 : list path) :
  StronglySorted path_le l1 -> StronglySorted path_le l2 ->
  List.NoDup l1 -> List.NoDup l2 ->
  (forall x, In x l1 <-> In x l2) -> l1 = l2.
Proof.
  intros S1. revert l2. induction S1 as [|x l1 S1 IH Hx]; intros l2 S2 N1 N2 Hm.
  - destruct l2 as [|y l2]; [reflexivity|]. destruct (proj2 (Hm y) (or_introl eq_refl)).
  - destruct S2 as [|y l2 S2 Hy]; [destruct (proj1 (Hm x) (or_introl eq_refl))|].
    rewrite List.Forall_forall in Hx, Hy.
    inversion N1 as [|? ? Nx N1']; subst. inversion N2 as [|? ? Ny N2']; subst.
    assert (E : x = y).
    { destruct (proj1 (Hm x) (or_introl eq_refl)) as [E|Hin]; [congruence|].
      destruct (proj2 (Hm y) (or_introl eq_refl)) as [E|Hin']; [exact E|].
      apply path_leb_antisym; [apply Hx; exact Hin'|apply Hy; exact Hin]. }
    subst y. f_equal. apply IH; try assumption.
    intros z. split; intros Hz.
    + destruct (proj1 (Hm z) (or_intror Hz)) as [E|H]; [subst; contradiction|exact H].
    + destruct (proj2 (Hm z) (or_intror Hz)) as [E|H]; [subst; contradiction|exact H].
Qed.

(** X17. The selection depends on which arguments are given, not on their
    order nor on how often one is given. *)
Theorem selection_ignores_argument_order (w : world) (args1 args2 : list str) :
  (forall a, In a args1 <-> In a args2) ->
  gather_files w args1 = gather_files w args2.
Proof.
  intros Hm.
  destruct (gather_files_sorted_nodup w args1) as [S1 N1].
  destruct (gather_files_sorted_nodup w args2) as [S2 N2].
  apply sorted_unique; try assumption.
  destruct args1 as [|a1 r1], args2 as [|a2 r2].
  - tauto.
  - destruct (proj2 (Hm a2) (or_introl eq_refl)).
  - destruct (proj1 (Hm a1) (or_introl eq_refl)).
  - intros x. rewrite !gather_files_arguments by discriminate.
    split; intros (a & Ha & H); exists a; (split; [apply Hm; exact Ha|exact H]).
Qed.

Lemma selection_ignores_argument_order_witness :
  gather_files vendor_world [lit "docs"; lit "notes.txt"; lit "docs"]
  = gather_files vendor_world [lit "notes.txt"; lit "docs"].
Proof.
  apply selection_ignores_argument_order.
  intros a. simpl. tauto.
Defined.

Lemma marker_match (l r : bool) :
  Py.strip (marker l r) <> [] /\ Re.match_sep (Py.strip (marker l r)) = true.
Proof. destruct l, r; split; (discriminate || reflexivity). Qed.

Lemma is_separator_true_kept (inner : list str) :
  is_separator (map (normalized_cell true) inner) = true.
Proof.
  apply is_separator_true. intros q Hq Hb. apply in_map_iff in Hq.
  destruct Hq as (p & <- & _). destruct (blank_dec p) as [Hp|Hp].
  - rewrite (normalized_cell_blank true p Hp) in Hb. exfalso. apply Hb. reflexivity.
  - rewrite (normalized_cell_marker p Hp). apply marker_match.
Qed.

(** X18. The rewrite keeps the kind of a table row: the rewritten form of a
    separator row is classified as a separator row, that of a content row as a
    content row. *)
Theorem row_kind_kept (line : str) :
  is_table_row line = true ->
  exists out,
    normalize_table_line line = Ret out /\
    is_separator (cells out) = is_separator (cells line).
Proof.
  intros Hrow.
  destruct (normalize_table_line_cells line (is_table_row_parts line Hrow))
    as (out & Hout & _ & Hcells).
  exists out. split; [exact Hout|]. rewrite Hcells.
  destruct (is_separator (cells line)) eqn:E.
  - apply is_separator_true_kept.
  - apply is_separator_false_kept. exact E.
Qed.

Lemma row_kind_kept_witness :
  exists out,
    normalize_table_line (lit "|:-|--:| |") = Ret out /\
    is_separator (cells out) = true.
Proof.
  destruct (row_kind_kept (lit "|:-|--:| |") eq_refl) as (out & H1 & H2).
  exists out. split; [exact H1|]. rewrite H2. reflexivity.
Defined.

End Stability.
